(** * OpenLane command line entry point ([openlane/__main__.py])

    A shallow embedding of the [cli] command: option validation by click,
    configuration loading, flow resolution, initial state loading, last-run
    resolution and the dispatch of [flow.start], with the mapping of the
    engine's failures to process exit codes.

    The collaborators the file imports ([ConfigBuilder], [Flow.factory],
    [SequentialFlow], [State], the file system) are not part of the file:
    they are the fields of a [World] record, and every call the command makes
    to one of them is recorded, in order, in a trace of [Event]s. *)

From Stdlib Require Import String Ascii List ZArith Lia Bool Permutation Sorted.
Import ListNotations.
Open Scope Z_scope.
Open Scope string_scope.

Set Implicit Arguments.

(** ** Python values the command handles *)

(** [config_in.meta.flow]: a flow name, or the list of step ids of an ad-hoc
    sequential flow. This is what [isinstance(flow_description, str)]
    discriminates. *)
Inductive FlowDescription :=
| FlowName (name : string)
| FlowSteps (step_ids : list string).

Record Meta := { flow : FlowDescription }.

(** The configuration object is opaque to the command but for [meta.flow]. *)
Record Config := { meta : Meta; config_handle : nat }.

(** Opaque engine objects: a flow class ([Type[Flow]]), a flow instance and a
    state object are handles; what they do is given by the [World]. *)
Record FlowClass := { flow_class_handle : nat }.
Record Flow := { flow_handle : nat }.
Record State := { state_handle : nat }.

(** [os.path.getmtime] returns a finite float, which the command only
    compares. Every finite double is an integer multiple of 2^-1074, so a
    modification time is represented by that integer: the order and equality
    of the floats are the order and equality of the integers, and the literal
    [0] is the integer 0. *)
Definition mtime := Z.

(** Exceptions, by the class the [except] clauses of [cli] test for. An
    [InvalidConfig] carries [config], [errors] and [warnings]; for the others
    the payload is [str(e)]. [FlowError] stands for an instance of [FlowError]
    that is not a [FlowException], [Exception] for any other class. *)
Inductive PyExn :=
| InvalidConfig (config : string) (errors warnings : list string)
| ValueError (msg : string)
| OSError (msg : string)
| FlowException (msg : string)
| FlowError (msg : string)
| Exception (msg : string).

(** The result of a call to a collaborator. *)
Inductive PyResult (A : Type) :=
| Returns (a : A)
| Raises (e : PyExn).
Arguments Returns {A} a.
Arguments Raises {A} e.

(** The parameters of [cli], as click passes them. *)
Record Args := {
  flow_name : option string;
  pdk_root : option string;
  pdk : string;
  scl : option string;
  config_file : string;
  run_tag : option string;
  last_run : bool;
  frm : option string;
  to : option string;
  initial_state_json : option string;
  config_override_strings : list string
}.

Definition with_flow_name (a : Args) (f : option string) : Args :=
  {| flow_name := f; pdk_root := pdk_root a; pdk := pdk a; scl := scl a;
     config_file := config_file a; run_tag := run_tag a;
     last_run := last_run a; frm := frm a; to := to a;
     initial_state_json := initial_state_json a;
     config_override_strings := config_override_strings a |}.

(** ** The collaborators *)

Record World := {
  (** [ConfigBuilder.load(config_file, pdk_root=, pdk=, scl=,
      config_override_strings=)] *)
  ConfigBuilder_load :
    string -> option string -> string -> option string -> list string ->
    PyResult (Config * string);
  (** [Flow.factory.list()] and [Flow.factory.get(name)] *)
  Flow_factory_list : list string;
  Flow_factory_get : string -> option FlowClass;
  (** [SequentialFlow.make(step_ids)] *)
  SequentialFlow_make : list string -> PyResult FlowClass;
  (** [TargetFlow(config_in, design_dir)] *)
  Flow_init : FlowClass -> Config -> string -> PyResult Flow;
  (** [flow.start(tag=, frm=, to=, with_initial_state=)] *)
  Flow_start :
    Flow -> option string -> option string -> option string ->
    option State -> PyResult unit;
  (** [State.loads(text)] *)
  State_loads : string -> PyResult State;
  (** [open(path).read()] *)
  open_read : string -> PyResult string;
  (** [glob.glob(pattern)] *)
  glob_glob : string -> list string;
  (** [os.path.getmtime(path)] *)
  os_path_getmtime : string -> PyResult mtime;
  (** [s.casefold()]: the case folding of Python's strings, which click's
      [Choice] applies to the value of [--flow] and to each choice. Its
      table, that of Unicode, is outside the file: nothing is assumed of
      it. *)
  str_casefold : string -> string
}.

(** ** Effects: a trace of events, and how a computation ends *)

Inductive Event :=
| Err (msg : string)
| Warn (msg : string)
| Log (msg : string)
| UsageError (param value : string)
| CallConfigLoad (config_file : string) (pdk_root : option string)
    (pdk : string) (scl : option string) (overrides : list string)
| CallFactoryGet (name : string)
| CallSequentialMake (step_ids : list string)
| CallFlowInit (target : FlowClass) (config_in : Config) (design_dir : string)
| CallOpenRead (path : string)
| CallStateLoads (text : string)
| CallGlob (pattern : string)
| CallGetmtime (path : string)
| CallStart (flow : Flow) (tag frm to : option string)
    (with_initial_state : option State).

(** A computation returns a value, leaves through [exit(code)], or raises. *)
Inductive Res (A : Type) :=
| Ret (a : A)
| Exit (code : Z)
| Raise (e : PyExn).
Arguments Ret {A} a.
Arguments Exit {A} code.
Arguments Raise {A} e.

Definition M (A : Type) : Type := (list Event * Res A)%type.

Definition trace {A} (m : M A) : list Event := fst m.
Definition result {A} (m : M A) : Res A := snd m.

Definition ret {A} (a : A) : M A := ([], Ret a).

Definition bind {A B} (m : M A) (k : A -> M B) : M B :=
  match m with
  | (t, Ret a) => let (t', r) := k a in ((t ++ t')%list, r)
  | (t, Exit code) => (t, Exit code)
  | (t, Raise e) => (t, Raise e)
  end.

Declare Scope py_scope.
Delimit Scope py_scope with py.
Notation "x <- m ;; k" := (bind m (fun x => k))
  (at level 61, m at next level, right associativity) : py_scope.
Notation "' pat <- m ;; k" := (bind m (fun x => match x with pat => k end))
  (at level 61, pat pattern, m at next level, right associativity) : py_scope.
Notation "m ;; k" := (bind m (fun _ => k))
  (at level 61, right associativity) : py_scope.
Open Scope py_scope.

Definition emit (ev : Event) : M unit := ([ev], Ret tt).

(** [exit(code)]: raises [SystemExit], which no handler of [cli] catches. *)
Definition exit {A} (code : Z) : M A := ([], Exit code).

(** A recorded call to a collaborator. *)
Definition call {A} (ev : Event) (r : PyResult A) : M A :=
  ([ev], match r with Returns a => Ret a | Raises e => Raise e end).

(** [try: body except ...]: [handler e] is the suite of the first clause
    that matches [e], if one does. *)
Definition try_except {A} (body : M A) (handler : PyExn -> option (M A)) : M A :=
  match body with
  | (t, Raise e) =>
      match handler e with
      | Some h => let (t', r) := h in ((t ++ t')%list, r)
      | None => (t, Raise e)
      end
  | other => other
  end.

(** [for x in xs: body(x)] *)
Fixpoint for_each {A} (xs : list A) (body : A -> M unit) : M unit :=
  match xs with
  | [] => ret tt
  | x :: rest => body x ;; for_each rest body
  end.

(** [openlane.common]'s printers. *)
Definition err (msg : string) : M unit := emit (Err msg).
Definition warn (msg : string) : M unit := emit (Warn msg).
Definition log (msg : string) : M unit := emit (Log msg).

(** The status the process ends with: 0 when [cli] returns, the argument of
    [exit], and 1 when an exception reaches the interpreter. *)
Definition exit_code {A} (m : M A) : Z :=
  match result m with
  | Ret _ => 0
  | Exit code => code
  | Raise _ => 1
  end.

(** ** [os.path] on POSIX *)

Module posixpath.

Definition sep : ascii := "/"%char.

Definition is_sep (c : ascii) : bool := Ascii.eqb c sep.

(** [p.rfind(sep)]: the index of the last separator of [p], -1 when it
    has none. *)
Fixpoint rfind (p : string) : Z :=
  match p with
  | EmptyString => -1
  | String c rest =>
      let i := rfind rest in
      if (0 <=? i)%Z then i + 1 else if is_sep c then 0 else -1
  end.

(** [p[i:]] *)
Fixpoint slice_from (i : nat) (p : string) : string :=
  match i, p with
  | O, _ => p
  | S i', String _ rest => slice_from i' rest
  | S _, EmptyString => EmptyString
  end.

(** [basename(p)]: [i = p.rfind(sep) + 1; return p[i:]] *)
Definition basename (p : string) : string :=
  slice_from (Z.to_nat (rfind p + 1)) p.

Definition startswith_sep (p : string) : bool :=
  match p with
  | String c _ => is_sep c
  | EmptyString => false
  end.

Fixpoint endswith_sep (p : string) : bool :=
  match p with
  | EmptyString => false
  | String c EmptyString => is_sep c
  | String _ rest => endswith_sep rest
  end.

(** One step of [join(a, *p)]'s loop: an absolute component replaces the
    path, a component after an empty path or a trailing separator is
    appended, any other is appended after a separator. *)
Definition join_step (path b : string) : string :=
  if startswith_sep b then b
  else if orb (String.eqb path EmptyString) (endswith_sep path) then path ++ b
  else path ++ String sep b.

Definition join (a : string) (p : list string) : string :=
  fold_left join_step p a.

(** Whether [p] holds a separator. *)
Fixpoint has_sep (p : string) : bool :=
  match p with
  | EmptyString => false
  | String c rest => orb (is_sep c) (has_sep rest)
  end.

End posixpath.

(** ** click's option type of [--flow] *)

Module click.

(** [Choice(choices, case_sensitive).convert(value)], [casefold] being
    [str.casefold]: the choices are keyed by their normal form (their
    casefold when the type is not case sensitive; a later choice replaces an
    earlier one of the same key) and the choice of [value]'s key is
    returned; [None] is [self.fail(...)], a usage error. *)
Definition Choice_convert (casefold : string -> string) (choices : list string)
    (case_sensitive : bool) (value : string) : option string :=
  let norm := if case_sensitive then (fun s => s) else casefold in
  fold_left
    (fun found choice =>
       if String.eqb (norm choice) (norm value) then Some choice else found)
    choices None.

(** The exit code of a [UsageError]. *)
Definition UsageError_exit_code : Z := 2.

End click.

(** ** The command *)

(** [flow_name or config_in.meta.flow]: [None] and the empty string are
    false. *)
Definition flow_description (flow_name : option string) (config_in : Config)
    : FlowDescription :=
  match flow_name with
  | Some name => if String.eqb name "" then flow (meta config_in) else FlowName name
  | None => flow (meta config_in)
  end.

(** The loop over [runs], from a given [latest_time] and [latest_run]. *)
Fixpoint scan_runs (w : World) (runs : list string)
    (latest_time : mtime) (latest_run : option string)
    : M (mtime * option string) :=
  match runs with
  | [] => ret (latest_time, latest_run)
  | run :: rest =>
      time <- call (CallGetmtime run) (os_path_getmtime w run) ;;
      if (latest_time <? time)%Z
      then scan_runs w rest time (Some run)
      else scan_runs w rest latest_time latest_run
  end.

(** Lines 113-134: [ConfigBuilder.load] under its two handlers. *)
Definition load_config (w : World) (a : Args) : M (Config * string) :=
  try_except
    (call (CallConfigLoad (config_file a) (pdk_root a) (pdk a) (scl a)
             (config_override_strings a))
       (ConfigBuilder_load w (config_file a) (pdk_root a) (pdk a) (scl a)
          (config_override_strings a)))
    (fun e =>
       match e with
       | InvalidConfig config errors warnings => Some (
           log ("[green]Errors have occurred while loading the " ++ config ++ ":") ;;
           for_each errors err ;;
           (if Nat.ltb 0 (List.length warnings)
            then log "The following warnings have also been generated:" ;;
                 for_each warnings warn
            else ret tt) ;;
           log "OpenLane will now quit. Please check your configuration." ;;
           exit 1)
       | ValueError msg => Some (
           err msg ;;
           log "OpenLane will now quit." ;;
           exit 1)
       | _ => None
       end).

(** Lines 138-149: the flow class of a flow description. *)
Definition TargetFlow (w : World) (description : FlowDescription) : M FlowClass :=
  match description with
  | FlowSteps step_ids =>
      call (CallSequentialMake step_ids) (SequentialFlow_make w step_ids)
  | FlowName name =>
      found <- call (CallFactoryGet name) (Returns (Flow_factory_get w name)) ;;
      match found with
      | Some FlowClass => ret FlowClass
      | None =>
          err ("Unknown flow '" ++ name
               ++ "' specified in configuration's 'meta' object.") ;;
          exit 1
      end
  end.

(** Lines 152-154: the initial state. *)
Definition initial_state (w : World) (initial_state_json : option string)
    : M (option State) :=
  match initial_state_json with
  | Some path =>
      text <- call (CallOpenRead path) (open_read w path) ;;
      state <- call (CallStateLoads text) (State_loads w text) ;;
      ret (Some state)
  | None => ret None
  end.

(** Lines 156-171: the run tag [flow.start] is given. *)
Definition resolve_run_tag (w : World) (design_dir : string)
    (last_run : bool) (run_tag : option string) : M (option string) :=
  if last_run then
    let pattern := posixpath.join design_dir ["runs"; "*"] in
    runs <- call (CallGlob pattern) (Returns (glob_glob w pattern)) ;;
    '(_, latest_run) <- scan_runs w runs 0 None ;;
    match latest_run with
    | None =>
        err "--last-run specified, but no runs found." ;;
        exit 1
    | Some run => ret (Some (posixpath.basename run))
    end
  else ret run_tag.

(** Lines 173-187: [flow.start] under its two handlers. *)
Definition start_flow (w : World) (flow : Flow) (tag frm to : option string)
    (with_initial_state : option State) : M unit :=
  try_except
    (call (CallStart flow tag frm to with_initial_state)
       (Flow_start w flow tag frm to with_initial_state))
    (fun e =>
       match e with
       | FlowException msg => Some (
           err ("The flow has encountered an unexpected error: " ++ msg) ;;
           err "OpenLane will now quit." ;;
           exit 1)
       | FlowError msg => Some (
           err ("The following error was encountered while running the flow: " ++ msg) ;;
           err "OpenLane will now quit." ;;
           exit 2)
       | _ => None
       end).

Definition is_not_None {A} (o : option A) : bool :=
  match o with Some _ => true | None => false end.

(** The body of [cli]. *)
Definition cli (w : World) (a : Args) : M unit :=
  (if andb (is_not_None (run_tag a)) (last_run a)
   then err "--run-tag and --last-run are mutually exclusive." ;; exit 1
   else ret tt) ;;
  '(config_in, design_dir) <- load_config w a ;;
  target <- TargetFlow w (flow_description (flow_name a) config_in) ;;
  flow <- call (CallFlowInit target config_in design_dir)
            (Flow_init w target config_in design_dir) ;;
  state <- initial_state w (initial_state_json a) ;;
  tag <- resolve_run_tag w design_dir (last_run a) (run_tag a) ;;
  start_flow w flow tag (frm a) (to a) state.

(** The command as the process runs it: click converts the value of
    [--flow] with [Choice(Flow.factory.list(), case_sensitive=False)] before
    it calls [cli]; a value that is no choice ends the process with a usage
    error. *)
Definition main (w : World) (argv : Args) : M unit :=
  match flow_name argv with
  | None => cli w argv
  | Some value =>
      match click.Choice_convert (str_casefold w) (Flow_factory_list w) false
              value with
      | Some choice => cli w (with_flow_name argv (Some choice))
      | None =>
          emit (UsageError "--flow" value) ;;
          exit click.UsageError_exit_code
      end
  end.

(** ** Stages of a run of [cli] *)

(** The invocation passes the mutual exclusion test, the configuration
    loads as [config_in] and [design_dir], flow resolution gives [target],
    which instantiates as [flow], the initial state is [state] and the run tag
    is [tag]: [cli] gets to call [flow.start]. *)
Definition reaches_start (w : World) (a : Args) (config_in : Config)
    (design_dir : string) (target : FlowClass) (flow : Flow)
    (state : option State) (tag : option string) : Prop :=
  andb (is_not_None (run_tag a)) (last_run a) = false /\
  result (load_config w a) = Ret (config_in, design_dir) /\
  result (TargetFlow w (flow_description (flow_name a) config_in)) = Ret target /\
  Flow_init w target config_in design_dir = Returns flow /\
  result (initial_state w (initial_state_json a)) = Ret state /\
  result (resolve_run_tag w design_dir (last_run a) (run_tag a)) = Ret tag.

(** The events of [cli] before the call of [flow.start], when it gets there. *)
Definition events_before_start (w : World) (a : Args) (config_in : Config)
    (design_dir : string) (target : FlowClass) : list Event :=
  (trace (load_config w a)
   ++ trace (TargetFlow w (flow_description (flow_name a) config_in))
   ++ [CallFlowInit target config_in design_dir]
   ++ trace (initial_state w (initial_state_json a))
   ++ trace (resolve_run_tag w design_dir (last_run a) (run_tag a)))%list.

(** ** Which collaborator an event is a call to *)

Inductive Callee :=
| Printer | Click | ConfigBuilderLoad | FlowFactory | SequentialFlowMake
| FlowInit | OpenRead | StateLoads | Glob | Getmtime | FlowStart.

Definition callee (ev : Event) : Callee :=
  match ev with
  | Err _ | Warn _ | Log _ => Printer
  | UsageError _ _ => Click
  | CallConfigLoad _ _ _ _ _ => ConfigBuilderLoad
  | CallFactoryGet _ => FlowFactory
  | CallSequentialMake _ => SequentialFlowMake
  | CallFlowInit _ _ _ => FlowInit
  | CallOpenRead _ => OpenRead
  | CallStateLoads _ => StateLoads
  | CallGlob _ => Glob
  | CallGetmtime _ => Getmtime
  | CallStart _ _ _ _ _ => FlowStart
  end.

(** ** The order of the calls *)

(** The place of a collaborator in the order the command calls them in:
    click's validation, the configuration, flow resolution, the flow's
    constructor, the state file, the runs directory, the flow's start. The
    printers are called throughout and have none. *)
Definition call_rank (c : Callee) : option nat :=
  match c with
  | Printer => None
  | Click => Some 0%nat
  | ConfigBuilderLoad => Some 1%nat
  | FlowFactory | SequentialFlowMake => Some 2%nat
  | FlowInit => Some 3%nat
  | OpenRead => Some 4%nat
  | StateLoads => Some 5%nat
  | Glob => Some 6%nat
  | Getmtime => Some 7%nat
  | FlowStart => Some 8%nat
  end.

(** [e1] may come before [e2] in a run. *)
Definition in_call_order (e1 e2 : Event) : Prop :=
  match call_rank (callee e1), call_rank (callee e2) with
  | Some i, Some j => (i <= j)%nat
  | _, _ => True
  end.

(** [ev] is a printed line or a call of rank [n] or more (resp. [n] or
    less). *)
Definition ranked_from (n : nat) (ev : Event) : Prop :=
  match call_rank (callee ev) with
  | Some i => (n <= i)%nat
  | None => True
  end.

Definition ranked_upto (n : nat) (ev : Event) : Prop :=
  match call_rank (callee ev) with
  | Some i => (i <= n)%nat
  | None => True
  end.

(** ** Sample worlds and invocations *)

(** The case folding of the sample worlds. The names and values of the
    samples are ASCII text, on which [str.casefold] lowers the letters A to Z
    and leaves every other character. *)
Definition ascii_lower (c : ascii) : ascii :=
  let n := nat_of_ascii c in
  if andb (Nat.leb 65 n) (Nat.leb n 90) then ascii_of_nat (n + 32) else c.

Fixpoint ascii_casefold (s : string) : string :=
  match s with
  | EmptyString => EmptyString
  | String c rest => String (ascii_lower c) (ascii_casefold rest)
  end.

Definition classic_config : Config :=
  {| meta := {| flow := FlowName "Classic" |}; config_handle := 0 |}.

Definition custom_config : Config :=
  {| meta := {| flow := FlowSteps ["Yosys.Synthesis"; "OpenROAD.Floorplan"] |};
     config_handle := 1 |}.

Definition misnamed_config : Config :=
  {| meta := {| flow := FlowName "Clasic" |}; config_handle := 2 |}.

(** The modification time of [path] in a listing of the runs directory. *)
Fixpoint listed_mtime (listing : list (string * mtime)) (path : string)
    : PyResult mtime :=
  match listing with
  | [] => Raises (OSError "No such file or directory")
  | (p, t) :: rest => if String.eqb p path then Returns t else listed_mtime rest path
  end.

(** A world with one registered flow, [Classic], a design directory
    [design] whose runs directory has the given listing, one readable and
    well-formed state file, and an engine whose [start] ends as given. *)
Definition sample_world (config_in : Config) (listing : list (string * mtime))
    (started : PyResult unit) : World :=
  {| ConfigBuilder_load := fun _ _ _ _ _ => Returns (config_in, "design");
     Flow_factory_list := ["Classic"];
     Flow_factory_get := fun name =>
       if String.eqb (ascii_casefold name) "classic"
       then Some {| flow_class_handle := 0 |} else None;
     SequentialFlow_make := fun _ => Returns {| flow_class_handle := 1 |};
     Flow_init := fun _ _ _ => Returns {| flow_handle := 0 |};
     Flow_start := fun _ _ _ _ _ => started;
     State_loads := fun text =>
       if String.eqb text "{}" then Returns {| state_handle := 0 |}
       else Raises (ValueError "Expecting value");
     open_read := fun path =>
       if String.eqb path "state_in.json" then Returns "{}"
       else if String.eqb path "broken.json" then Returns "{"
       else Raises (OSError "No such file or directory");
     glob_glob := fun pattern =>
       if String.eqb pattern "design/runs/*" then map fst listing else [];
     os_path_getmtime := listed_mtime listing;
     str_casefold := ascii_casefold |}.

Definition two_runs : list (string * mtime) :=
  [("design/runs/RUN_1", 1700000000); ("design/runs/RUN_2", 1700000500)].

(** A runs directory whose only entry was last modified at the epoch. *)
Definition epoch_run : list (string * mtime) := [("design/runs/RUN_1", 0)].

Definition sample_args (flow_name run_tag : option string) (last_run : bool)
    (initial_state_json : option string) : Args :=
  {| flow_name := flow_name; pdk_root := None; pdk := "sky130A"; scl := None;
     config_file := "design/config.json"; run_tag := run_tag;
     last_run := last_run; frm := None; to := None;
     initial_state_json := initial_state_json;
     config_override_strings := [] |}.

(** The sample world with a configuration that does not load. *)
Definition unloadable_world (e : PyExn) : World :=
  let w := sample_world classic_config [] (Returns tt) in
  {| ConfigBuilder_load := fun _ _ _ _ _ => Raises e;
     Flow_factory_list := Flow_factory_list w;
     Flow_factory_get := Flow_factory_get w;
     SequentialFlow_make := SequentialFlow_make w;
     Flow_init := Flow_init w;
     Flow_start := Flow_start w;
     State_loads := State_loads w;
     open_read := open_read w;
     glob_glob := glob_glob w;
     os_path_getmtime := os_path_getmtime w;
     str_casefold := str_casefold w |}.

(** The sample world whose runs directory lists [listed], the
    modification times being those of [listing]. *)
Definition relisted_world (listing : list (string * mtime))
    (listed : list string) : World :=
  let w := sample_world classic_config listing (Returns tt) in
  {| ConfigBuilder_load := ConfigBuilder_load w;
     Flow_factory_list := Flow_factory_list w;
     Flow_factory_get := Flow_factory_get w;
     SequentialFlow_make := SequentialFlow_make w;
     Flow_init := Flow_init w;
     Flow_start := Flow_start w;
     State_loads := State_loads w;
     open_read := open_read w;
     glob_glob := fun pattern =>
       if String.eqb pattern "design/runs/*" then listed else [];
     os_path_getmtime := os_path_getmtime w;
     str_casefold := str_casefold w |}.

(** A runs directory with a dangling entry between two runs. *)
Definition dangling_run : list string :=
  ["design/runs/RUN_1"; "design/runs/GONE"; "design/runs/RUN_2"].

(** ** The monad *)

Lemma bind_Ret A B (m : M A) (k : A -> M B) (x : A) :
  result m = Ret x ->
  bind m k = ((trace m ++ trace (k x))%list, result (k x)).
Proof.
  destruct m as [t r]; simpl; intros ->; simpl.
  now destruct (k x).
Qed.

Lemma bind_ret A B (x : A) (k : A -> M B) : bind (ret x) k = k x.
Proof. unfold bind, ret. now destruct (k x). Qed.

Lemma bind_Exit A B (m : M A) (k : A -> M B) (code : Z) :
  result m = Exit code -> bind m k = (trace m, Exit code).
Proof. destruct m as [t r]; simpl; now intros ->. Qed.

Lemma bind_Raise A B (m : M A) (k : A -> M B) (e : PyExn) :
  result m = Raise e -> bind m k = (trace m, Raise e).
Proof. destruct m as [t r]; simpl; now intros ->. Qed.

(** An event of [bind m k] is an event of [m], or one of [k x] once [m]
    has returned [x]. *)
Lemma in_trace_bind A B (m : M A) (k : A -> M B) (ev : Event) :
  In ev (trace (bind m k)) <->
  In ev (trace m) \/ exists x, result m = Ret x /\ In ev (trace (k x)).
Proof.
  destruct m as [t [x | code | e]]; simpl.
  - destruct (k x) as [t' r] eqn:K; simpl. rewrite in_app_iff. split.
    + intros [H | H]; [now left | right]. exists x. now rewrite K.
    + intros [H | (y & Hy & H)]; [now left | right].
      injection Hy as <-. now rewrite K in H.
  - split; [now left | intros [H | (y & Hy & _)]; [assumption | discriminate]].
  - split; [now left | intros [H | (y & Hy & _)]; [assumption | discriminate]].
Qed.

(** How [bind m k] ends: as [m] when [m] does not return, as [k x] when it
    returns [x]. *)
Lemma result_bind A B (m : M A) (k : A -> M B) :
  result (bind m k) =
  match result m with
  | Ret x => result (k x)
  | Exit code => Exit code
  | Raise e => Raise e
  end.
Proof.
  destruct m as [t [x | code | e]]; simpl; try reflexivity.
  now destruct (k x).
Qed.

Lemma in_trace_for_each A (xs : list A) (body : A -> M unit) (ev : Event) :
  In ev (trace (for_each xs body)) ->
  exists x, In x xs /\ In ev (trace (body x)).
Proof.
  induction xs as [| x rest IH]; simpl; [intros [] |].
  rewrite in_trace_bind. intros [H | (_ & _ & H)].
  - exists x. now split; [left |].
  - destruct (IH H) as (y & Hy & Hev). exists y. now split; [right |].
Qed.

Lemma result_for_each A (xs : list A) (body : A -> M unit) :
  (forall x, result (body x) = Ret tt) ->
  result (for_each xs body) = Ret tt.
Proof.
  intros Hbody. induction xs as [| x rest IH]; simpl; [reflexivity |].
  now rewrite result_bind, Hbody.
Qed.

(** ** The events of each stage of [cli] *)

Arguments bind : simpl never.

(** Runs a computation whose calls have known results. *)
Ltac run := unfold bind, call, err, warn, log, emit, exit, ret; simpl.
Ltac run_in H := unfold bind, call, err, warn, log, emit, exit, ret in H; simpl in H.

Ltac split_bind H :=
  repeat match type of H with
  | In _ (trace (bind _ _)) =>
      let x := fresh "x" in let Hx := fresh "Hx" in
      apply in_trace_bind in H; destruct H as [H | (x & Hx & H)]
  end.

Lemma in_trace_printers (xs : list string) (print : string -> M unit) (ev : Event) :
  (forall x e, In e (trace (print x)) -> callee e = Printer) ->
  In ev (trace (for_each xs print)) -> callee ev = Printer.
Proof.
  intros Hprint H. apply in_trace_for_each in H as (x & _ & H). eauto.
Qed.

Lemma try_except_Raise A (t : list Event) (e : PyExn) handler (h : M A) :
  handler e = Some h ->
  try_except (t, Raise e) handler = ((t ++ trace h)%list, result h).
Proof. simpl. intros ->. now destruct h. Qed.

Lemma try_except_unhandled A (t : list Event) (e : PyExn)
    (handler : PyExn -> option (M A)) :
  handler e = None -> try_except (t, Raise e) handler = (t, Raise e).
Proof. simpl. now intros ->. Qed.

Lemma trace_try_except_Raise A (t : list Event) (e : PyExn) handler (h : M A) :
  handler e = Some h ->
  trace (try_except (t, Raise e) handler) = (t ++ trace h)%list.
Proof. intros H. now rewrite (try_except_Raise _ _ _ H). Qed.

Lemma result_try_except_Raise A (t : list Event) (e : PyExn) handler (h : M A) :
  handler e = Some h ->
  result (try_except (t, Raise e) handler) = result h.
Proof. intros H. now rewrite (try_except_Raise _ _ _ H). Qed.

Ltac printer_event H :=
  simpl in H; destruct H as [<- | []]; reflexivity.

Lemma load_config_events w a ev :
  In ev (trace (load_config w a)) ->
  ev = CallConfigLoad (config_file a) (pdk_root a) (pdk a) (scl a)
         (config_override_strings a)
  \/ callee ev = Printer.
Proof.
  unfold load_config, call.
  destruct (ConfigBuilder_load w _ _ _ _ _) as [c | e].
  - simpl. intros [<- | []]. now left.
  - destruct e;
      try (rewrite try_except_unhandled by reflexivity;
           simpl; intros [<- | []]; now left);
      erewrite trace_try_except_Raise by reflexivity; rewrite in_app_iff;
      (intros [[<- | []] | H]; [now left | right]).
    + split_bind H.
      * printer_event H.
      * eapply in_trace_printers; [| exact H].
        intros msg e H'. printer_event H'.
      * destruct (Nat.ltb 0 (List.length warnings)); [| destruct H].
        split_bind H.
        -- printer_event H.
        -- eapply in_trace_printers; [| exact H].
           intros msg e H'. printer_event H'.
      * printer_event H.
      * destruct H.
    + split_bind H; try printer_event H. destruct H.
Qed.

(** [load_config] returns what [ConfigBuilder.load] returns, leaves with
    code 1 on [InvalidConfig] or [ValueError], and lets any other exception
    through. *)
Lemma load_config_result w a :
  result (load_config w a) =
  match ConfigBuilder_load w (config_file a) (pdk_root a) (pdk a) (scl a)
          (config_override_strings a) with
  | Returns c => Ret c
  | Raises (InvalidConfig _ _ _) | Raises (ValueError _) => Exit 1
  | Raises e => Raise e
  end.
Proof.
  unfold load_config, call.
  destruct (ConfigBuilder_load w _ _ _ _ _) as [c | e]; [reflexivity |].
  destruct e; try reflexivity;
    erewrite result_try_except_Raise by reflexivity;
    repeat (rewrite result_bind; simpl).
  - rewrite result_for_each by reflexivity.
    destruct (Nat.ltb 0 (List.length warnings)); [| reflexivity].
    pose proof (@result_for_each _ warnings warn (fun _ => eq_refl)) as Hw.
    destruct (for_each warnings warn) as [t r]; simpl in *. now rewrite Hw.
Qed.

Lemma TargetFlow_steps w step_ids :
  TargetFlow w (FlowSteps step_ids) =
  call (CallSequentialMake step_ids) (SequentialFlow_make w step_ids).
Proof. reflexivity. Qed.

Lemma TargetFlow_registered w name c :
  Flow_factory_get w name = Some c ->
  TargetFlow w (FlowName name) = ([CallFactoryGet name], Ret c).
Proof. intros H. unfold TargetFlow. run. now rewrite H. Qed.

Lemma TargetFlow_unknown w name :
  Flow_factory_get w name = None ->
  TargetFlow w (FlowName name) =
  ([CallFactoryGet name;
    Err ("Unknown flow '" ++ name
         ++ "' specified in configuration's 'meta' object.")],
   Exit 1).
Proof. intros H. unfold TargetFlow. run. now rewrite H. Qed.

Lemma TargetFlow_events w description ev :
  In ev (trace (TargetFlow w description)) ->
  match description with
  | FlowSteps step_ids => ev = CallSequentialMake step_ids
  | FlowName name =>
      ev = CallFactoryGet name \/
      (Flow_factory_get w name = None /\
       ev = Err ("Unknown flow '" ++ name
                 ++ "' specified in configuration's 'meta' object."))
  end.
Proof.
  destruct description as [name | step_ids].
  - destruct (Flow_factory_get w name) as [c |] eqn:Hget.
    + rewrite (TargetFlow_registered _ _ Hget). intros [<- | []]. now left.
    + rewrite (TargetFlow_unknown _ _ Hget).
      intros [<- | [<- | []]]; [now left | now right].
  - rewrite TargetFlow_steps. intros [<- | []]. reflexivity.
Qed.

Lemma initial_state_events w path ev :
  In ev (trace (initial_state w path)) ->
  exists p, path = Some p /\
    (ev = CallOpenRead p \/
     exists text, open_read w p = Returns text /\ ev = CallStateLoads text).
Proof.
  destruct path as [p |]; [| intros []].
  unfold initial_state, call. intros H. exists p. split; [reflexivity |].
  destruct (open_read w p) as [text | e]; run_in H.
  - destruct (State_loads w text); simpl in H;
      destruct H as [<- | [<- | []]]; auto; right; now exists text.
  - destruct H as [<- | []]. now left.
Qed.

(** The initial state is absent without a path; with one, it is what
    [State.loads] makes of what [open(path).read()] returns, and an
    exception of either call is not caught. *)
Lemma initial_state_result w path :
  result (initial_state w path) =
  match path with
  | None => Ret None
  | Some p =>
      match open_read w p with
      | Raises e => Raise e
      | Returns text =>
          match State_loads w text with
          | Raises e => Raise e
          | Returns state => Ret (Some state)
          end
      end
  end.
Proof.
  destruct path as [p |]; [| reflexivity].
  unfold initial_state, call.
  destruct (open_read w p) as [text | e]; [| reflexivity].
  run. now destruct (State_loads w text).
Qed.

Lemma scan_runs_events w runs latest_time latest_run ev :
  In ev (trace (scan_runs w runs latest_time latest_run)) ->
  exists run, In run runs /\ ev = CallGetmtime run.
Proof.
  revert latest_time latest_run.
  induction runs as [| run rest IH]; intros latest_time latest_run; simpl.
  - intros [].
  - rewrite in_trace_bind. intros [[<- | []] | (time & _ & H)].
    + exists run. now split; [left |].
    + destruct (latest_time <? time)%Z;
        apply IH in H as (r & Hr & ->); exists r; now split; [right |].
Qed.

(** The loop leaves through no [exit]. *)
Lemma scan_runs_no_exit w runs latest_time latest_run code :
  result (scan_runs w runs latest_time latest_run) <> Exit code.
Proof.
  revert latest_time latest_run.
  induction runs as [| run rest IH]; intros latest_time latest_run; simpl.
  - discriminate.
  - rewrite result_bind. unfold call; simpl.
    destruct (os_path_getmtime w run) as [time | e]; [| discriminate].
    destruct (latest_time <? time)%Z; apply IH.
Qed.

Lemma resolve_run_tag_events w design_dir last_run run_tag ev :
  In ev (trace (resolve_run_tag w design_dir last_run run_tag)) ->
  last_run = true /\
  (callee ev = Glob \/ callee ev = Getmtime \/
   ev = Err "--last-run specified, but no runs found.").
Proof.
  unfold resolve_run_tag. destruct last_run; [| intros []].
  intros H. split; [reflexivity |]. split_bind H.
  - simpl in H. destruct H as [<- | []]. now left.
  - apply scan_runs_events in H as (r & _ & ->). right. now left.
  - destruct x0 as [latest_time [run |]]; simpl in H; [destruct H |].
    destruct H as [<- | []]. right. now right.
Qed.

Lemma resolve_run_tag_not_last w design_dir run_tag :
  resolve_run_tag w design_dir false run_tag = ([], Ret run_tag).
Proof. reflexivity. Qed.

(** Run resolution leaves only with code 1. *)
Lemma resolve_run_tag_exit w design_dir last_run run_tag code :
  result (resolve_run_tag w design_dir last_run run_tag) = Exit code ->
  code = 1.
Proof.
  unfold resolve_run_tag. destruct last_run; [| discriminate].
  rewrite result_bind; simpl. rewrite result_bind.
  destruct (result (scan_runs w _ 0 None)) as [[latest_time latest_run] | c | e] eqn:Hscan.
  - destruct latest_run; simpl; [discriminate | congruence].
  - now apply scan_runs_no_exit in Hscan.
  - discriminate.
Qed.

Lemma start_flow_events w flow tag frm to state ev :
  In ev (trace (start_flow w flow tag frm to state)) ->
  ev = CallStart flow tag frm to state \/ callee ev = Printer.
Proof.
  unfold start_flow, call.
  destruct (Flow_start w flow tag frm to state) as [[] | e].
  - simpl. intros [<- | []]. now left.
  - destruct e;
      try (rewrite try_except_unhandled by reflexivity;
           simpl; intros [<- | []]; now left);
      erewrite trace_try_except_Raise by reflexivity; rewrite in_app_iff;
      (intros [[<- | []] | H]; [now left | right]);
      simpl in H; destruct H as [<- | [<- | []]]; reflexivity.
Qed.

(** What [start_flow] does, by how [flow.start] ends. *)
Lemma start_flow_run w flow tag frm to state :
  start_flow w flow tag frm to state =
  match Flow_start w flow tag frm to state with
  | Returns _ => ([CallStart flow tag frm to state], Ret tt)
  | Raises (FlowException msg) =>
      ([CallStart flow tag frm to state;
        Err ("The flow has encountered an unexpected error: " ++ msg);
        Err "OpenLane will now quit."], Exit 1)
  | Raises (FlowError msg) =>
      ([CallStart flow tag frm to state;
        Err ("The following error was encountered while running the flow: " ++ msg);
        Err "OpenLane will now quit."], Exit 2)
  | Raises e => ([CallStart flow tag frm to state], Raise e)
  end.
Proof.
  unfold start_flow, call.
  destruct (Flow_start w flow tag frm to state) as [[] | e]; [reflexivity |].
  destruct e; reflexivity.
Qed.

(** ** Runs of [cli] *)

Lemma cli_mutually_exclusive w a :
  andb (is_not_None (run_tag a)) (last_run a) = true ->
  cli w a = ([Err "--run-tag and --last-run are mutually exclusive."], Exit 1).
Proof. intros H. unfold cli. now rewrite H. Qed.

(** A run that gets to [flow.start]: the events of the stages, in order,
    then those of the call and of its handlers; the run ends as they do. *)
Lemma cli_reaches_start w a config_in design_dir target flow state tag :
  reaches_start w a config_in design_dir target flow state tag ->
  cli w a =
  ((events_before_start w a config_in design_dir target
    ++ trace (start_flow w flow tag (frm a) (to a) state))%list,
   result (start_flow w flow tag (frm a) (to a) state)).
Proof.
  intros (Hx & Hload & Htarget & Hinit & Hstate & Htag).
  unfold cli, events_before_start. rewrite Hx, bind_ret.
  destruct (load_config w a) as [t1 r1]; simpl in Hload; subst r1.
  unfold bind at 1. cbv beta iota.
  destruct (TargetFlow w _) as [t2 r2]; simpl in Htarget; subst r2.
  unfold bind at 1, call. rewrite Hinit.
  destruct (initial_state w _) as [t3 r3]; simpl in Hstate; subst r3.
  destruct (resolve_run_tag w _ _ _) as [t4 r4]; simpl in Htag; subst r4.
  unfold bind. destruct (start_flow w flow tag (frm a) (to a) state) as [t5 r5].
  simpl. f_equal. rewrite <- !app_assoc. simpl. now rewrite <- !app_assoc.
Qed.

(** Every event of a run, by the stage it belongs to. *)
Lemma cli_events w a ev :
  In ev (trace (cli w a)) ->
  (andb (is_not_None (run_tag a)) (last_run a) = true /\
   ev = Err "--run-tag and --last-run are mutually exclusive.")
  \/ In ev (trace (load_config w a))
  \/ exists config_in design_dir,
       result (load_config w a) = Ret (config_in, design_dir) /\
       (In ev (trace (TargetFlow w (flow_description (flow_name a) config_in)))
        \/ exists target,
             result (TargetFlow w (flow_description (flow_name a) config_in))
             = Ret target /\
             (ev = CallFlowInit target config_in design_dir
              \/ exists flow,
                   Flow_init w target config_in design_dir = Returns flow /\
                   (In ev (trace (initial_state w (initial_state_json a)))
                    \/ exists state,
                         result (initial_state w (initial_state_json a)) = Ret state /\
                         (In ev (trace (resolve_run_tag w design_dir
                                          (last_run a) (run_tag a)))
                          \/ exists tag,
                               reaches_start w a config_in design_dir target
                                 flow state tag /\
                               In ev (trace (start_flow w flow tag (frm a) (to a)
                                               state)))))).
Proof.
  destruct (andb (is_not_None (run_tag a)) (last_run a)) eqn:Hx.
  - rewrite (cli_mutually_exclusive _ _ Hx). intros [<- | []]. now left.
  - unfold cli. rewrite Hx. intros H. right.
    apply in_trace_bind in H as [[] | (_ & _ & H)].
    apply in_trace_bind in H as [H | ([config_in design_dir] & Hload & H)];
      [now left | right].
    exists config_in, design_dir. split; [assumption |].
    apply in_trace_bind in H as [H | (target & Htarget & H)]; [now left | right].
    exists target. split; [assumption |].
    apply in_trace_bind in H as [H | (flow & Hinit & H)].
    { left. simpl in H. now destruct H as [<- | []]. }
    right. exists flow.
    assert (Hflow : Flow_init w target config_in design_dir = Returns flow).
    { unfold call, result in Hinit; simpl in Hinit.
      destruct (Flow_init w target config_in design_dir); congruence. }
    split; [assumption |].
    apply in_trace_bind in H as [H | (state & Hstate & H)]; [now left | right].
    exists state. split; [assumption |].
    apply in_trace_bind in H as [H | (tag & Htag & H)]; [now left | right].
    exists tag. split; [| assumption].
    repeat split; assumption.
Qed.

(** [flow.start] is called with the arguments the stages computed, and
    only by a run that got there. *)
Lemma cli_start_inv w a flow tag f t state :
  In (CallStart flow tag f t state) (trace (cli w a)) ->
  f = frm a /\ t = to a /\
  exists config_in design_dir target,
    reaches_start w a config_in design_dir target flow state tag.
Proof.
  intros H. apply cli_events in H.
  destruct H as [[_ H] | [H | (config_in & design_dir & Hload & H)]];
    [discriminate | |].
  { apply load_config_events in H as [H | H]; discriminate. }
  destruct H as [H | (target & Htarget & H)].
  { apply TargetFlow_events in H.
    destruct (flow_description (flow_name a) config_in);
      [destruct H as [H | [_ H]] |]; discriminate. }
  destruct H as [H | (flow' & Hinit & H)]; [discriminate |].
  destruct H as [H | (state' & Hstate & H)].
  { apply initial_state_events in H as (p & _ & [H | (text & _ & H)]);
      discriminate. }
  destruct H as [H | (tag' & Hreach & H)].
  { apply resolve_run_tag_events in H as (_ & [H | [H | H]]); discriminate. }
  apply start_flow_events in H as [H | H]; [| discriminate].
  injection H as -> -> -> -> ->.
  repeat split. now exists config_in, design_dir, target.
Qed.

(** The converse of [cli_events]: past the mutual exclusion test, the
    events of each stage that is reached are events of the run. *)
Lemma cli_stage_events w a ev :
  andb (is_not_None (run_tag a)) (last_run a) = false ->
  In ev (trace (load_config w a))
  \/ (exists config_in design_dir,
       result (load_config w a) = Ret (config_in, design_dir) /\
       (In ev (trace (TargetFlow w (flow_description (flow_name a) config_in)))
        \/ exists target,
             result (TargetFlow w (flow_description (flow_name a) config_in))
             = Ret target /\
             (ev = CallFlowInit target config_in design_dir
              \/ exists flow,
                   Flow_init w target config_in design_dir = Returns flow /\
                   (In ev (trace (initial_state w (initial_state_json a)))
                    \/ exists state,
                         result (initial_state w (initial_state_json a)) = Ret state /\
                         (In ev (trace (resolve_run_tag w design_dir
                                          (last_run a) (run_tag a)))
                          \/ exists tag,
                               result (resolve_run_tag w design_dir
                                         (last_run a) (run_tag a)) = Ret tag /\
                               In ev (trace (start_flow w flow tag (frm a) (to a)
                                               state))))))) ->
  In ev (trace (cli w a)).
Proof.
  intros Hx H. unfold cli. rewrite Hx, bind_ret.
  apply in_trace_bind.
  destruct H as [H | (config_in & design_dir & Hload & H)]; [now left | right].
  exists (config_in, design_dir). split; [assumption |].
  apply in_trace_bind.
  destruct H as [H | (target & Htarget & H)]; [now left | right].
  exists target. split; [assumption |].
  apply in_trace_bind.
  destruct H as [-> | (flow & Hinit & H)]; [left; now left | right].
  exists flow. split; [unfold call, result; simpl; now rewrite Hinit |].
  apply in_trace_bind.
  destruct H as [H | (state & Hstate & H)]; [now left | right].
  exists state. split; [assumption |].
  apply in_trace_bind.
  destruct H as [H | (tag & Htag & H)]; [now left | right].
  now exists tag.
Qed.

Lemma exit_code_bind A B (m : M A) (k : A -> M B) :
  (forall x, result m <> Ret x) -> exit_code (bind m k) = exit_code m.
Proof.
  intros H. unfold exit_code. rewrite result_bind.
  destruct (result m) as [x | code | e]; [now destruct (H x) | |]; reflexivity.
Qed.

Lemma load_config_exit_code w a :
  (exists c, result (load_config w a) = Ret c) \/ exit_code (load_config w a) = 1.
Proof.
  unfold exit_code. rewrite load_config_result.
  destruct (ConfigBuilder_load w _ _ _ _ _) as [c | e]; [left; eauto | right].
  now destruct e.
Qed.

Lemma TargetFlow_exit_code w description :
  (exists c, result (TargetFlow w description) = Ret c)
  \/ exit_code (TargetFlow w description) = 1.
Proof.
  destruct description as [name | step_ids].
  - destruct (Flow_factory_get w name) as [c |] eqn:Hget.
    + rewrite (TargetFlow_registered _ _ Hget). left; eexists; reflexivity.
    + rewrite (TargetFlow_unknown _ _ Hget). now right.
  - rewrite TargetFlow_steps. unfold call, exit_code, result; simpl.
    destruct (SequentialFlow_make w step_ids);
      [left; eexists; reflexivity | now right].
Qed.

Lemma initial_state_exit_code w path :
  (exists s, result (initial_state w path) = Ret s)
  \/ exit_code (initial_state w path) = 1.
Proof.
  unfold exit_code. rewrite initial_state_result.
  destruct path as [p |]; [| left; eauto].
  destruct (open_read w p) as [text | e]; [| now right].
  destruct (State_loads w text); [left; eauto | now right].
Qed.

Lemma resolve_run_tag_exit_code w design_dir last_run run_tag :
  (exists t, result (resolve_run_tag w design_dir last_run run_tag) = Ret t)
  \/ exit_code (resolve_run_tag w design_dir last_run run_tag) = 1.
Proof.
  unfold exit_code.
  destruct (result (resolve_run_tag w design_dir last_run run_tag))
    as [t | code | e] eqn:H; [left; eauto | right | now right].
  now apply resolve_run_tag_exit in H.
Qed.

Lemma exit_code_bind_Ret A B (m : M A) (k : A -> M B) (x : A) :
  result m = Ret x -> exit_code (bind m k) = exit_code (k x).
Proof. intros H. unfold exit_code. now rewrite result_bind, H. Qed.

Ltac stage_fails H :=
  right; rewrite exit_code_bind; [exact H |];
  let x := fresh in let Hx := fresh in
  intros x Hx; unfold exit_code in H; rewrite Hx in H; discriminate.

(** A run of [cli] gets to [flow.start], or the process ends with code 1. *)
Lemma cli_cases w a :
  (exists config_in design_dir target flow state tag,
     reaches_start w a config_in design_dir target flow state tag)
  \/ exit_code (cli w a) = 1.
Proof.
  destruct (andb (is_not_None (run_tag a)) (last_run a)) eqn:Hx.
  { right. now rewrite (cli_mutually_exclusive _ _ Hx). }
  unfold cli. rewrite Hx, bind_ret.
  destruct (load_config_exit_code w a) as [([config_in design_dir] & Hload) | H];
    [| stage_fails H].
  rewrite (exit_code_bind_Ret _ _ Hload).
  destruct (TargetFlow_exit_code w (flow_description (flow_name a) config_in))
    as [(target & Htarget) | H]; [| stage_fails H].
  rewrite (exit_code_bind_Ret _ _ Htarget).
  destruct (Flow_init w target config_in design_dir) as [flow | e] eqn:Hinit.
  2: { right. rewrite exit_code_bind; [reflexivity | discriminate]. }
  rewrite (@exit_code_bind_Ret _ _ _ _ flow) by reflexivity.
  destruct (initial_state_exit_code w (initial_state_json a))
    as [(state & Hstate) | H]; [| stage_fails H].
  rewrite (exit_code_bind_Ret _ _ Hstate).
  destruct (resolve_run_tag_exit_code w design_dir (last_run a) (run_tag a))
    as [(tag & Htag) | H]; [| stage_fails H].
  left. exists config_in, design_dir, target, flow, state, tag.
  repeat split; assumption.
Qed.

(** Splits [H : In ev (trace (cli w a))] by the stage the event is of. *)
Ltac by_stage H :=
  apply cli_events in H;
  destruct H as
    [[_ H] | [H | (config_in & design_dir & Hload &
      [H | (target & Htarget &
        [H | (flow' & Hinit &
          [H | (state' & Hstate &
            [H | (tag' & Hreach & H)])])])])]];
  [ | apply load_config_events in H as [H | H]
    | apply TargetFlow_events in H
    |
    | apply initial_state_events in H as (p & Hpath & [H | (text & Hread & H)])
    | apply resolve_run_tag_events in H as (Hlast & [H | [H | H]])
    | apply start_flow_events in H as [H | H] ];
  try (subst; discriminate).

(** The runs directory is listed, and modification times read, only under
    [--last-run]. *)
Lemma cli_glob_inv w a ev :
  In ev (trace (cli w a)) ->
  callee ev = Glob \/ callee ev = Getmtime ->
  last_run a = true.
Proof.
  intros H Hc. by_stage H; try assumption;
    try (destruct Hc as [Hc | Hc]; rewrite H in Hc; discriminate);
    try (subst ev; destruct Hc; discriminate).
  destruct (flow_description (flow_name a) config_in);
    [destruct H as [H | [_ H]] |]; subst ev; destruct Hc; discriminate.
Qed.

(** A file is read, and a state deserialized, only for the path of
    [--with-initial-state]; what is deserialized is what was read. *)
Lemma cli_open_inv w a ev :
  In ev (trace (cli w a)) ->
  callee ev = OpenRead \/ callee ev = StateLoads ->
  exists p, initial_state_json a = Some p /\
    (ev = CallOpenRead p \/
     exists text, open_read w p = Returns text /\ ev = CallStateLoads text).
Proof.
  intros H Hc. by_stage H;
    try (destruct Hc as [Hc | Hc]; rewrite H in Hc; discriminate);
    try (subst ev; destruct Hc; discriminate).
  - destruct (flow_description (flow_name a) config_in);
      [destruct H as [H | [_ H]] |]; subst ev; destruct Hc; discriminate.
  - exists p. split; [assumption | now left].
  - exists p. split; [assumption | right]. now exists text.
Qed.

(** The flow registry is asked for a name, or a sequential flow made of
    step ids, only for the flow description of the run. *)
Lemma cli_flow_resolution_inv w a ev :
  In ev (trace (cli w a)) ->
  callee ev = FlowFactory \/ callee ev = SequentialFlowMake ->
  exists config_in design_dir,
    result (load_config w a) = Ret (config_in, design_dir) /\
    match flow_description (flow_name a) config_in with
    | FlowName name => ev = CallFactoryGet name
    | FlowSteps step_ids => ev = CallSequentialMake step_ids
    end.
Proof.
  intros H Hc. by_stage H;
    try (destruct Hc as [Hc | Hc]; rewrite H in Hc; discriminate);
    try (subst ev; destruct Hc; discriminate).
  exists config_in, design_dir. split; [assumption |].
  destruct (flow_description (flow_name a) config_in); [| assumption].
  destruct H as [H | [_ H]]; [assumption |].
  subst ev; destruct Hc; discriminate.
Qed.

(** ** The outcome of [flow.start] *)

(** C1. When [flow.start] raises a [FlowError], the process exits with
    code 2 and the last diagnostics are the message of the error, behind the
    words for a failure of the flow, and the notice that OpenLane quits; when
    it raises a [FlowException], the process exits with code 1 and the
    diagnostic carries the message behind the words for an unexpected error.
    Among the runs in which [flow.start] is called, exit code 2 is that of a
    [FlowError] and of nothing else. *)
Theorem start_failure_exit_codes w a flow tag f t state :
  In (CallStart flow tag f t state) (trace (cli w a)) ->
  (forall msg,
     Flow_start w flow tag f t state = Raises (FlowError msg) ->
     exit_code (cli w a) = 2 /\
     exists before,
       trace (cli w a) =
       (before ++
        [CallStart flow tag f t state;
         Err ("The following error was encountered while running the flow: " ++ msg);
         Err "OpenLane will now quit."])%list)
  /\ (forall msg,
        Flow_start w flow tag f t state = Raises (FlowException msg) ->
        exit_code (cli w a) = 1 /\
        exists before,
          trace (cli w a) =
          (before ++
           [CallStart flow tag f t state;
            Err ("The flow has encountered an unexpected error: " ++ msg);
            Err "OpenLane will now quit."])%list)
  /\ (exit_code (cli w a) = 2 <->
      exists msg, Flow_start w flow tag f t state = Raises (FlowError msg)).
Proof.
  intros H.
  apply cli_start_inv in H as (-> & -> & config_in & design_dir & target & Hreach).
  rewrite (cli_reaches_start Hreach). unfold exit_code, trace, result. simpl fst; simpl snd.
  rewrite start_flow_run.
  split; [| split].
  - intros msg ->. simpl. split; [reflexivity | eauto].
  - intros msg ->. simpl. split; [reflexivity | eauto].
  - destruct (Flow_start w flow tag (frm a) (to a) state) as [[] | e]; simpl.
    + split; [discriminate | intros [msg Hmsg]; discriminate].
    + destruct e; simpl; split; try discriminate;
        try (intros [m Hm]; discriminate); eauto.
Qed.

Lemma start_failure_exit_codes_witness :
  exit_code
    (cli (sample_world classic_config [] (Raises (FlowError "Step failed")))
       (sample_args None None false None)) = 2.
Proof.
  assert (H : In (CallStart {| flow_handle := 0 |} None None None None)
                (trace (cli (sample_world classic_config []
                               (Raises (FlowError "Step failed")))
                          (sample_args None None false None)))).
  { vm_compute. auto. }
  exact (proj1 (proj1 (start_failure_exit_codes _ _ _ _ _ _ _ H)
                  "Step failed" eq_refl)).
Defined.

(** ** Sample paths and option values *)

Example join_runs_pattern :
  posixpath.join "design" ["runs"; "*"] = "design/runs/*"
  /\ posixpath.join "design/" ["runs"; "*"] = "design/runs/*"
  /\ posixpath.join "" ["runs"; "*"] = "runs/*".
Proof. repeat split. Qed.

Example basename_of_run :
  posixpath.basename "design/runs/RUN_2" = "RUN_2"
  /\ posixpath.basename "RUN_2" = "RUN_2"
  /\ posixpath.basename "design/runs/" = "".
Proof. repeat split. Qed.

Example flow_option_values :
  click.Choice_convert ascii_casefold ["Classic"; "Optimizing"] false "classic"
  = Some "Classic"
  /\ click.Choice_convert ascii_casefold ["Classic"; "Optimizing"] false
       "OPTIMIZING" = Some "Optimizing"
  /\ click.Choice_convert ascii_casefold ["Classic"; "Optimizing"] false "Bogus"
     = None.
Proof. repeat split. Qed.

(** ** [os.path.basename] *)

Lemma rfind_has_sep p : (0 <=? posixpath.rfind p)%Z = posixpath.has_sep p.
Proof.
  induction p as [| c rest IH]; simpl; [reflexivity |].
  destruct (0 <=? posixpath.rfind rest)%Z eqn:Hr.
  - rewrite <- IH, orb_true_r. apply Z.leb_le. apply Z.leb_le in Hr. lia.
  - rewrite <- IH, orb_false_r. now destruct (posixpath.is_sep c).
Qed.

(** The base name of [c :: rest] is that of [rest] when [rest] holds a
    separator, [rest] when [c] is the only one, and the whole path when
    there is none. *)
Lemma basename_cons c rest :
  posixpath.basename (String c rest) =
  if posixpath.has_sep rest then posixpath.basename rest
  else if posixpath.is_sep c then rest else String c rest.
Proof.
  unfold posixpath.basename. simpl posixpath.rfind.
  rewrite <- rfind_has_sep.
  destruct (0 <=? posixpath.rfind rest)%Z eqn:Hr.
  - apply Z.leb_le in Hr.
    replace (Z.to_nat (posixpath.rfind rest + 1 + 1))
      with (S (Z.to_nat (posixpath.rfind rest + 1))) by lia.
    reflexivity.
  - now destruct (posixpath.is_sep c).
Qed.

(** A base name holds no separator: it is one path component. *)
Lemma basename_no_sep p : posixpath.has_sep (posixpath.basename p) = false.
Proof.
  induction p as [| c rest IH]; [reflexivity |].
  rewrite basename_cons.
  destruct (posixpath.has_sep rest) eqn:Hs; [assumption |].
  destruct (posixpath.is_sep c) eqn:Hc; [assumption |].
  simpl. now rewrite Hc, Hs.
Qed.

(** A path is its base name behind a head that is empty or ends with a
    separator. *)
Lemma basename_suffix p :
  exists head,
    p = head ++ posixpath.basename p /\
    (head = "" \/ posixpath.endswith_sep head = true).
Proof.
  induction p as [| c rest (head & Heq & Hhead)].
  - exists "". now split; [| left].
  - rewrite basename_cons.
    destruct (posixpath.has_sep rest) eqn:Hs.
    + exists (String c head). split; [simpl; now rewrite <- Heq | right].
      destruct Hhead as [-> | Hend].
      * simpl in Heq. rewrite Heq, basename_no_sep in Hs. discriminate.
      * simpl. now destruct head.
    + destruct (posixpath.is_sep c) eqn:Hc.
      * exists (String c ""). split; [reflexivity | right; exact Hc].
      * exists "". now split; [| left].
Qed.

(** The base name of a path with a directory part is not the path. *)
Lemma basename_proper p :
  posixpath.has_sep p = true -> posixpath.basename p <> p.
Proof.
  intros Hs Heq. rewrite <- Heq in Hs. now rewrite basename_no_sep in Hs.
Qed.

(** ** The scan for the latest run *)

(** The run the loop ends with is the one it started with or one of the
    runs it went over. *)
Lemma scan_runs_selected w runs latest_time latest_run time run :
  result (scan_runs w runs latest_time latest_run) = Ret (time, Some run) ->
  latest_run = Some run \/ In run runs.
Proof.
  revert latest_time latest_run.
  induction runs as [| r rest IH]; intros latest_time latest_run; simpl.
  - intros [= _ ->]. now left.
  - rewrite result_bind. unfold call, result at 1; simpl.
    destruct (os_path_getmtime w r) as [tr | e]; [| discriminate].
    destruct (latest_time <? tr)%Z; intros H; apply IH in H as [H | H]; auto.
    injection H as <-. right. now left.
Qed.

(** Under [--last-run]: the tag is the base name of the run the scan of
    [glob(join(design_dir, "runs", "*"))] ends with, and [cli] exits with
    code 1 when it ends with none. *)
Lemma resolve_run_tag_last w design_dir run_tag :
  result (resolve_run_tag w design_dir true run_tag) =
  match result (scan_runs w (glob_glob w (posixpath.join design_dir ["runs"; "*"]))
                  0 None) with
  | Ret (_, Some run) => Ret (Some (posixpath.basename run))
  | Ret (_, None) => Exit 1
  | Exit code => Exit code
  | Raise e => Raise e
  end.
Proof.
  unfold resolve_run_tag. cbv iota zeta.
  rewrite result_bind. unfold call. cbn [result snd].
  rewrite result_bind.
  destruct (result (scan_runs w _ 0 None)) as [[time [run |]] | code | e];
    reflexivity.
Qed.

Lemma start_flow_calls w flow tag frm to state :
  In (CallStart flow tag frm to state) (trace (start_flow w flow tag frm to state)).
Proof.
  rewrite start_flow_run.
  destruct (Flow_start w flow tag frm to state) as [[] | e];
    [| destruct e]; now left.
Qed.

(** A run that gets to [flow.start] calls it. *)
Lemma cli_calls_start w a config_in design_dir target flow state tag :
  reaches_start w a config_in design_dir target flow state tag ->
  In (CallStart flow tag (frm a) (to a) state) (trace (cli w a)).
Proof.
  intros H. rewrite (cli_reaches_start H). unfold trace at 1; simpl fst.
  apply in_or_app. right. apply start_flow_calls.
Qed.

(** ** The run tag *)

(** C9. With a run tag and without [--last-run], every call of
    [flow.start] is given exactly the supplied tag; the run lists no
    directory and reads no modification time, so nothing is checked about the
    run directory; and when the stages before it succeed, [flow.start] is
    called, with that tag. *)
Theorem run_tag_passed_unchanged w a supplied :
  run_tag a = Some supplied ->
  last_run a = false ->
  (forall flow tag f t state,
     In (CallStart flow tag f t state) (trace (cli w a)) -> tag = Some supplied)
  /\ (forall ev,
        In ev (trace (cli w a)) -> callee ev <> Glob /\ callee ev <> Getmtime)
  /\ (forall config_in design_dir target flow state,
        result (load_config w a) = Ret (config_in, design_dir) ->
        result (TargetFlow w (flow_description (flow_name a) config_in)) = Ret target ->
        Flow_init w target config_in design_dir = Returns flow ->
        result (initial_state w (initial_state_json a)) = Ret state ->
        In (CallStart flow (Some supplied) (frm a) (to a) state) (trace (cli w a))).
Proof.
  intros Htag Hlast. split; [| split].
  - intros flow tag f t state H.
    apply cli_start_inv in H as (_ & _ & c & d & target & Hreach).
    destruct Hreach as (_ & _ & _ & _ & _ & H).
    rewrite Htag, Hlast in H. now injection H as <-.
  - intros ev H.
    split; intros Hc;
      (assert (Hl : last_run a = true) by (eapply cli_glob_inv; eauto));
      congruence.
  - intros config_in design_dir target flow state Hload Htarget Hinit Hstate.
    apply cli_calls_start with config_in design_dir target.
    repeat split; try assumption.
    + rewrite Hlast. apply andb_false_r.
    + now rewrite Htag, Hlast.
Qed.

Lemma run_tag_passed_unchanged_witness :
  In (CallStart {| flow_handle := 0 |} (Some "RUN_7") None None None)
    (trace (cli (sample_world classic_config two_runs (Returns tt))
              (sample_args None (Some "RUN_7") false None))).
Proof.
  exact (proj2 (proj2 (run_tag_passed_unchanged
                         (sample_world classic_config two_runs (Returns tt))
                         (sample_args None (Some "RUN_7") false None)
                         eq_refl eq_refl))
           classic_config "design" {| flow_class_handle := 0 |}
           {| flow_handle := 0 |} None eq_refl eq_refl eq_refl eq_refl).
Defined.

(** C10. Under [--last-run], the tag every call of [flow.start] is given
    is the base name of the run the scan selected among the entries [glob]
    listed: the part of its path behind the last separator, which holds no
    separator, and which is not the path when the path has a directory
    part. *)
Theorem last_run_tag_is_basename w a flow tag f t state :
  last_run a = true ->
  In (CallStart flow tag f t state) (trace (cli w a)) ->
  exists config_in design_dir latest_time run,
    result (load_config w a) = Ret (config_in, design_dir) /\
    In run (glob_glob w (posixpath.join design_dir ["runs"; "*"])) /\
    result (scan_runs w (glob_glob w (posixpath.join design_dir ["runs"; "*"]))
              0 None) = Ret (latest_time, Some run) /\
    tag = Some (posixpath.basename run) /\
    posixpath.has_sep (posixpath.basename run) = false /\
    (exists head,
       run = head ++ posixpath.basename run /\
       (head = "" \/ posixpath.endswith_sep head = true)) /\
    (posixpath.has_sep run = true -> tag <> Some run).
Proof.
  intros Hlast H.
  apply cli_start_inv in H as (_ & _ & config_in & design_dir & target & Hreach).
  destruct Hreach as (_ & Hload & _ & _ & _ & Htag).
  rewrite Hlast, resolve_run_tag_last in Htag.
  destruct (result (scan_runs w _ 0 None)) as [[time [run |]] | code | e] eqn:Hscan;
    try discriminate.
  injection Htag as <-.
  exists config_in, design_dir, time, run.
  repeat split; try assumption; try reflexivity.
  - apply scan_runs_selected in Hscan as [Hscan | Hscan];
      [discriminate | assumption].
  - apply basename_no_sep.
  - apply basename_suffix.
  - intros Hs [= Heq]. now apply (basename_proper Hs).
Qed.

Lemma last_run_tag_is_basename_witness :
  exists config_in design_dir latest_time run,
    result (load_config (sample_world classic_config two_runs (Returns tt))
              (sample_args None None true None)) = Ret (config_in, design_dir) /\
    In run (glob_glob (sample_world classic_config two_runs (Returns tt))
              (posixpath.join design_dir ["runs"; "*"])) /\
    result (scan_runs (sample_world classic_config two_runs (Returns tt))
              (glob_glob (sample_world classic_config two_runs (Returns tt))
                 (posixpath.join design_dir ["runs"; "*"]))
              0 None) = Ret (latest_time, Some run) /\
    Some "RUN_2" = Some (posixpath.basename run) /\
    posixpath.has_sep (posixpath.basename run) = false /\
    (exists head,
       run = head ++ posixpath.basename run /\
       (head = "" \/ posixpath.endswith_sep head = true)) /\
    (posixpath.has_sep run = true -> Some "RUN_2" <> Some run).
Proof.
  apply (@last_run_tag_is_basename
           (sample_world classic_config two_runs (Returns tt))
           (sample_args None None true None)
           {| flow_handle := 0 |} (Some "RUN_2") None None None).
  - reflexivity.
  - vm_compute. auto 10.
Defined.

(** ** The initial state *)

(** A run whose state file cannot be read or deserialized, the stages
    before succeeding, ends with the exception, which nothing catches. *)
Lemma cli_state_raises w a config_in design_dir target flow e :
  andb (is_not_None (run_tag a)) (last_run a) = false ->
  result (load_config w a) = Ret (config_in, design_dir) ->
  result (TargetFlow w (flow_description (flow_name a) config_in)) = Ret target ->
  Flow_init w target config_in design_dir = Returns flow ->
  result (initial_state w (initial_state_json a)) = Raise e ->
  result (cli w a) = Raise e.
Proof.
  intros Hx Hload Htarget Hinit Hstate. unfold cli.
  rewrite Hx, bind_ret, result_bind, Hload. cbv beta iota.
  rewrite result_bind, Htarget, result_bind.
  unfold call at 1. rewrite Hinit. cbn [result snd].
  now rewrite result_bind, Hstate.
Qed.

(** C8. Without [--with-initial-state], no file is read and no state
    deserialized in the run, every call of [flow.start] is given no initial
    state, and [flow.start] is called, with none, when the other stages
    succeed. With a path, once the configuration is loaded and the flow
    instantiated, the file at that path is read, and it is the only file
    read; the whole of what [open(path).read()] returned is given to
    [State.loads], and the state it returns is the one [flow.start] is
    called with; when the read or the deserialization raises, the exception
    is not caught: the process ends with code 1 and [flow.start] is not
    called. *)
Theorem initial_state_loading w a :
  (initial_state_json a = None ->
   (forall ev,
      In ev (trace (cli w a)) -> callee ev <> OpenRead /\ callee ev <> StateLoads)
   /\ (forall flow tag f t state,
         In (CallStart flow tag f t state) (trace (cli w a)) -> state = None)
   /\ (forall config_in design_dir target flow tag,
         andb (is_not_None (run_tag a)) (last_run a) = false ->
         result (load_config w a) = Ret (config_in, design_dir) ->
         result (TargetFlow w (flow_description (flow_name a) config_in))
         = Ret target ->
         Flow_init w target config_in design_dir = Returns flow ->
         result (resolve_run_tag w design_dir (last_run a) (run_tag a)) = Ret tag ->
         In (CallStart flow tag (frm a) (to a) None) (trace (cli w a))))
  /\ (forall path,
        initial_state_json a = Some path ->
        (forall p, In (CallOpenRead p) (trace (cli w a)) -> p = path)
        /\ (forall text,
              In (CallStateLoads text) (trace (cli w a)) ->
              open_read w path = Returns text)
        /\ (forall flow tag f t state,
              In (CallStart flow tag f t state) (trace (cli w a)) ->
              exists text loaded,
                open_read w path = Returns text /\
                State_loads w text = Returns loaded /\
                state = Some loaded /\
                In (CallOpenRead path) (trace (cli w a)) /\
                In (CallStateLoads text) (trace (cli w a)))
        /\ ((exists e, open_read w path = Raises e)
            \/ (exists text e,
                  open_read w path = Returns text /\
                  State_loads w text = Raises e) ->
            exit_code (cli w a) = 1 /\
            forall flow tag f t state,
              ~ In (CallStart flow tag f t state) (trace (cli w a)))
        /\ (forall config_in design_dir target flow,
              andb (is_not_None (run_tag a)) (last_run a) = false ->
              result (load_config w a) = Ret (config_in, design_dir) ->
              result (TargetFlow w (flow_description (flow_name a) config_in))
              = Ret target ->
              Flow_init w target config_in design_dir = Returns flow ->
              In (CallOpenRead path) (trace (cli w a))
              /\ (forall e,
                    open_read w path = Raises e -> result (cli w a) = Raise e)
              /\ (forall text,
                    open_read w path = Returns text ->
                    In (CallStateLoads text) (trace (cli w a))
                    /\ (forall e,
                          State_loads w text = Raises e ->
                          result (cli w a) = Raise e)
                    /\ (forall loaded tag,
                          State_loads w text = Returns loaded ->
                          result (resolve_run_tag w design_dir (last_run a)
                                    (run_tag a)) = Ret tag ->
                          In (CallStart flow tag (frm a) (to a) (Some loaded))
                            (trace (cli w a)))))).
Proof.
  split.
  - intros Hnone. split; [| split].
    + intros ev H. split; intros Hc;
        (edestruct cli_open_inv as (p & Hp & _); [exact H | eauto |]);
        congruence.
    + intros flow tag f t state H.
      apply cli_start_inv in H as (_ & _ & c & d & target & Hreach).
      destruct Hreach as (_ & _ & _ & _ & Hstate & _).
      rewrite Hnone in Hstate. now injection Hstate as <-.
    + intros c d target flow tag Hx Hload Htarget Hinit Htag.
      apply cli_calls_start with c d target.
      repeat split; try assumption. now rewrite Hnone.
  - intros path Hsome.
    assert (Hstart : forall flow tag f t state,
               In (CallStart flow tag f t state) (trace (cli w a)) ->
               exists text loaded,
                 open_read w path = Returns text /\
                 State_loads w text = Returns loaded /\
                 state = Some loaded /\
                 In (CallOpenRead path) (trace (cli w a)) /\
                 In (CallStateLoads text) (trace (cli w a))).
    { intros flow tag f t state H.
      apply cli_start_inv in H as (_ & _ & c & d & target & Hreach).
      destruct Hreach as (Hx & Hload & Htarget & Hinit & Hstate & Htag).
      pose proof Hstate as Hres.
      rewrite initial_state_result, Hsome in Hres.
      destruct (open_read w path) as [text | e] eqn:Hread; [| discriminate].
      destruct (State_loads w text) as [loaded | e] eqn:Hloads; [| discriminate].
      injection Hres as <-. exists text, loaded.
      do 3 (split; [first [reflexivity | assumption] |]).
      split; apply cli_stage_events; try assumption;
        right; exists c, d; (split; [assumption |]);
        right; exists target; (split; [assumption |]);
        right; exists flow; (split; [assumption |]);
        left; rewrite Hsome; unfold initial_state, call; rewrite Hread; run;
        rewrite Hloads; simpl.
      - now left.
      - right. now left. }
    split; [| split; [| split; [exact Hstart | split]]].
    + intros p H.
      edestruct cli_open_inv as (q & Hq & [Hev | (text & _ & Hev)]);
        [exact H | now left | |]; congruence.
    + intros text H.
      edestruct cli_open_inv as (q & Hq & [Hev | (text' & Hread & Hev)]);
        [exact H | now right | |]; congruence.
    + intros Hbad.
      assert (Hno : forall flow tag f t state,
                 ~ In (CallStart flow tag f t state) (trace (cli w a))).
      { intros flow tag f t state H.
        apply Hstart in H as (text & loaded & Hread & Hloads & _).
        destruct Hbad as [(e & He) | (text' & e & Hread' & He)]; congruence. }
      split; [| exact Hno].
      destruct (cli_cases w a)
        as [(c & d & target & flow & state & tag & Hreach) | H]; [| exact H].
      now apply cli_calls_start, Hno in Hreach.
    + intros c d target flow Hx Hload Htarget Hinit.
      assert (Hin_state : forall ev,
                 In ev (trace (initial_state w (initial_state_json a))) ->
                 In ev (trace (cli w a))).
      { intros ev H. apply cli_stage_events; [assumption |].
        right. exists c, d. split; [assumption | right].
        exists target. split; [assumption | right].
        exists flow. split; [assumption | now left]. }
      split; [| split].
      * apply Hin_state. rewrite Hsome. unfold initial_state.
        apply in_trace_bind. left. now left.
      * intros e Hread.
        apply cli_state_raises with c d target flow; try assumption.
        now rewrite initial_state_result, Hsome, Hread.
      * intros text Hread. split; [| split].
        -- apply Hin_state. rewrite Hsome. unfold initial_state.
           apply in_trace_bind. right. exists text.
           split; [unfold call, result; simpl; now rewrite Hread |].
           apply in_trace_bind. left. now left.
        -- intros e Hloads.
           apply cli_state_raises with c d target flow; try assumption.
           now rewrite initial_state_result, Hsome, Hread, Hloads.
        -- intros loaded tag Hloads Htag.
           apply cli_calls_start with c d target.
           repeat split; try assumption.
           now rewrite initial_state_result, Hsome, Hread, Hloads.
Qed.

Lemma initial_state_loading_witness :
  In (CallOpenRead "state_in.json")
    (trace (cli (sample_world classic_config [] (Returns tt))
              (sample_args None None false (Some "state_in.json"))))
  /\ In (CallStateLoads "{}")
       (trace (cli (sample_world classic_config [] (Returns tt))
                 (sample_args None None false (Some "state_in.json"))))
  /\ In (CallStart {| flow_handle := 0 |} None None None
           (Some {| state_handle := 0 |}))
       (trace (cli (sample_world classic_config [] (Returns tt))
                 (sample_args None None false (Some "state_in.json"))))
  /\ result (cli (sample_world classic_config [] (Returns tt))
               (sample_args None None false (Some "broken.json")))
     = Raise (ValueError "Expecting value").
Proof.
  pose proof (proj2 (proj2 (proj2 (proj2
                (proj2 (initial_state_loading
                          (sample_world classic_config [] (Returns tt))
                          (sample_args None None false (Some "state_in.json")))
                   "state_in.json" eq_refl))))
                classic_config "design" {| flow_class_handle := 0 |}
                {| flow_handle := 0 |} eq_refl eq_refl eq_refl eq_refl)
    as (Hopen & _ & Htext).
  destruct (Htext "{}" eq_refl) as (Hloads & _ & Hstart).
  split; [exact Hopen | split; [exact Hloads | split]].
  - exact (Hstart {| state_handle := 0 |} None eq_refl eq_refl).
  - pose proof (proj2 (proj2 (proj2 (proj2
                  (proj2 (initial_state_loading
                            (sample_world classic_config [] (Returns tt))
                            (sample_args None None false (Some "broken.json")))
                     "broken.json" eq_refl))))
                  classic_config "design" {| flow_class_handle := 0 |}
                  {| flow_handle := 0 |} eq_refl eq_refl eq_refl eq_refl)
      as (_ & _ & Htext').
    exact (proj1 (proj2 (Htext' "{" eq_refl)) (ValueError "Expecting value") eq_refl).
Defined.

(** ** Flow resolution *)

Lemma Choice_convert_fold (casefold : string -> string) choices value found :
  let step := fun found choice =>
    if String.eqb (casefold choice) (casefold value)
    then Some choice else found in
  (forall choice,
     fold_left step choices found = Some choice ->
     found = Some choice \/
     (In choice choices /\ casefold choice = casefold value))
  /\ (fold_left step choices found = None <->
      found = None /\
      forall c, In c choices -> casefold c <> casefold value).
Proof.
  intros step. revert found.
  induction choices as [| c rest IH]; intros found; simpl.
  - split; [auto |]. split; [intros ->; split; [reflexivity | intros c []] | tauto].
  - destruct (IH (step found c)) as [IHsome IHnone]. split.
    + intros choice H. apply IHsome in H as [H | [H Heq]]; [| now right; auto].
      unfold step in H.
      destruct (String.eqb (casefold c) (casefold value)) eqn:Hc;
        [| now left].
      injection H as <-. apply String.eqb_eq in Hc. right. auto.
    + rewrite IHnone. unfold step.
      destruct (String.eqb (casefold c) (casefold value)) eqn:Hc.
      * apply String.eqb_eq in Hc. split; [intros [[=] _] |].
        intros [_ H]. exfalso. apply (H c); auto.
      * apply String.eqb_neq in Hc. split.
        -- intros [-> H]. split; [reflexivity |]. intros c' [<- | Hin]; auto.
        -- intros [-> H]. split; [reflexivity |]. auto.
Qed.

(** A value click accepts for [--flow] is converted to a registered name
    of the same casefold. *)
Lemma Choice_convert_Some (casefold : string -> string) choices value choice :
  click.Choice_convert casefold choices false value = Some choice ->
  In choice choices /\ casefold choice = casefold value.
Proof.
  intros H. apply (proj1 (Choice_convert_fold casefold choices value None)) in H.
  now destruct H as [[=] | H].
Qed.

(** click rejects exactly the values that match no registered name,
    whatever the case of their letters. *)
Lemma Choice_convert_None (casefold : string -> string) choices value :
  click.Choice_convert casefold choices false value = None <->
  forall c, In c choices -> casefold c <> casefold value.
Proof.
  unfold click.Choice_convert.
  rewrite (proj2 (Choice_convert_fold casefold choices value None)). tauto.
Qed.

(** A run whose flow description is a name the registry does not know:
    after the configuration is loaded, the registry is asked, the unknown
    flow is reported by its name and [cli] exits with code 1. *)
Lemma cli_unknown_flow w a config_in design_dir name :
  andb (is_not_None (run_tag a)) (last_run a) = false ->
  result (load_config w a) = Ret (config_in, design_dir) ->
  flow_description (flow_name a) config_in = FlowName name ->
  Flow_factory_get w name = None ->
  cli w a =
  ((trace (load_config w a) ++
    [CallFactoryGet name;
     Err ("Unknown flow '" ++ name
          ++ "' specified in configuration's 'meta' object.")])%list,
   Exit 1).
Proof.
  intros Hx Hload Hdesc Hget. unfold cli.
  rewrite Hx, bind_ret, (bind_Ret _ _ Hload). cbv beta iota.
  rewrite Hdesc, (TargetFlow_unknown _ _ Hget). reflexivity.
Qed.

(** C6. When the flow description of the run is a list of step ids,
    [SequentialFlow.make] is called with exactly that list, it is the only
    list it is called with, the flow registry is never asked, and the class
    it returns is the one instantiated on the configuration and the design
    directory. *)
Theorem step_list_makes_sequential_flow w a config_in design_dir step_ids :
  andb (is_not_None (run_tag a)) (last_run a) = false ->
  result (load_config w a) = Ret (config_in, design_dir) ->
  flow_description (flow_name a) config_in = FlowSteps step_ids ->
  In (CallSequentialMake step_ids) (trace (cli w a))
  /\ (forall ids, In (CallSequentialMake ids) (trace (cli w a)) -> ids = step_ids)
  /\ (forall ev, In ev (trace (cli w a)) -> callee ev <> FlowFactory)
  /\ (forall target,
        SequentialFlow_make w step_ids = Returns target ->
        In (CallFlowInit target config_in design_dir) (trace (cli w a))).
Proof.
  intros Hx Hload Hdesc.
  assert (Hinv : forall ev,
             In ev (trace (cli w a)) ->
             callee ev = FlowFactory \/ callee ev = SequentialFlowMake ->
             ev = CallSequentialMake step_ids).
  { intros ev H Hc.
    destruct (@cli_flow_resolution_inv _ _ _ H Hc) as (c & d & Hload' & Hev).
    rewrite Hload in Hload'. injection Hload' as <- <-.
    now rewrite Hdesc in Hev. }
  split; [| split; [| split]].
  - apply cli_stage_events; [assumption |].
    right. exists config_in, design_dir. split; [assumption | left].
    rewrite Hdesc, TargetFlow_steps. now left.
  - intros ids H. apply Hinv in H; [| now right]. now injection H.
  - intros ev H Hc. apply Hinv in H; [| now left]. now subst ev.
  - intros target Hmake. apply cli_stage_events; [assumption |].
    right. exists config_in, design_dir. split; [assumption | right].
    exists target. split; [| now left].
    rewrite Hdesc, TargetFlow_steps. unfold call, result; simpl. now rewrite Hmake.
Qed.

Lemma step_list_makes_sequential_flow_witness :
  In (CallSequentialMake ["Yosys.Synthesis"; "OpenROAD.Floorplan"])
    (trace (cli (sample_world custom_config [] (Returns tt))
              (sample_args None None false None))).
Proof.
  exact (proj1 (@step_list_makes_sequential_flow
                  (sample_world custom_config [] (Returns tt))
                  (sample_args None None false None)
                  custom_config "design"
                  ["Yosys.Synthesis"; "OpenROAD.Floorplan"]
                  eq_refl eq_refl eq_refl)).
Defined.

(** The process either ends with click's usage error for the value of
    [--flow], or runs [cli] with the options as given but for the flow
    name, which is a registered name when there is one. *)
Lemma main_cases w argv :
  (exists value,
     flow_name argv = Some value /\
     (forall c, In c (Flow_factory_list w) ->
                str_casefold w c <> str_casefold w value) /\
     main w argv = ([UsageError "--flow" value], Exit 2))
  \/ (flow_name argv = None /\ main w argv = cli w argv)
  \/ (exists choice,
        In choice (Flow_factory_list w) /\
        main w argv = cli w (with_flow_name argv (Some choice))).
Proof.
  unfold main. destruct (flow_name argv) as [value |] eqn:Hflow.
  - destruct (click.Choice_convert (str_casefold w) (Flow_factory_list w) false value)
      as [choice |] eqn:Hconv.
    + right. right. exists choice. split; [| reflexivity].
      now apply Choice_convert_Some in Hconv.
    + left. exists value. split; [reflexivity |]. split; [| reflexivity].
      now apply Choice_convert_None.
  - right. left. now split.
Qed.



(** ** An unregistered [--flow] *)

(** The claim C7 fails: [--flow Bogus], where the one registered flow is
    [Classic], ends the process with code 2 and click's usage error; no
    diagnostic of [cli] is printed. *)
Lemma unregistered_flow_option_counterexample :
  Forall (fun c => str_casefold (sample_world classic_config [] (Returns tt)) c
                   <> str_casefold (sample_world classic_config [] (Returns tt))
                        "Bogus")
    (Flow_factory_list (sample_world classic_config [] (Returns tt)))
  /\ main (sample_world classic_config [] (Returns tt))
       (sample_args (Some "Bogus") None false None)
     = ([UsageError "--flow" "Bogus"], Exit 2)
  /\ exit_code (main (sample_world classic_config [] (Returns tt))
                  (sample_args (Some "Bogus") None false None)) <> 1.
Proof.
  split; [| split].
  - repeat constructor. discriminate.
  - reflexivity.
  - discriminate.
Qed.

(** C7, amended. A value of [--flow] that matches no registered flow
    name, whatever the case of its letters, is refused by click before [cli]
    runs: the run is the usage error, which names the value, and the process
    ends with code 2. The unknown-flow diagnostic of [cli] is for a flow
    description that is a name [Flow.factory.get] does not find: once the
    configuration is loaded, the registry is asked for the name, the
    diagnostic names exactly that name and [cli] exits with code 1. *)
Theorem unregistered_flow_option_rejected w argv value :
  flow_name argv = Some value ->
  (forall c, In c (Flow_factory_list w) ->
             str_casefold w c <> str_casefold w value) ->
  main w argv = ([UsageError "--flow" value], Exit 2)
  /\ exit_code (main w argv) = 2
  /\ (forall a config_in design_dir name,
        andb (is_not_None (run_tag a)) (last_run a) = false ->
        result (load_config w a) = Ret (config_in, design_dir) ->
        flow_description (flow_name a) config_in = FlowName name ->
        Flow_factory_get w name = None ->
        exit_code (cli w a) = 1 /\
        cli w a =
        ((trace (load_config w a) ++
          [CallFactoryGet name;
           Err ("Unknown flow '" ++ name
                ++ "' specified in configuration's 'meta' object.")])%list,
         Exit 1)).
Proof.
  intros Hflow Hnone.
  assert (Hmain : main w argv = ([UsageError "--flow" value], Exit 2)).
  { unfold main. rewrite Hflow.
    now rewrite (proj2 (Choice_convert_None (str_casefold w) (Flow_factory_list w) value) Hnone). }
  split; [exact Hmain | split; [now rewrite Hmain |]].
  intros a config_in design_dir name Hx Hload Hdesc Hget.
  rewrite (cli_unknown_flow _ _ Hx Hload Hdesc Hget). now split.
Qed.

Lemma unregistered_flow_option_rejected_witness :
  exit_code (main (sample_world classic_config [] (Returns tt))
               (sample_args (Some "Bogus") None false None)) = 2.
Proof.
  refine (proj1 (proj2 (@unregistered_flow_option_rejected
                          (sample_world classic_config [] (Returns tt))
                          (sample_args (Some "Bogus") None false None)
                          "Bogus" eq_refl _))).
  simpl. intros c [<- | []]. discriminate.
Defined.

(** ** Which run [--last-run] selects *)

(** When every modification time can be read, the loop ends either with
    the time and run it started with, no entry being later than that time, or
    with the first entry of the greatest time, that time being later than the
    one it started with. *)
Lemma scan_runs_first_max w runs latest_time latest_run :
  (forall r, In r runs -> exists t, os_path_getmtime w r = Returns t) ->
  exists time run,
    result (scan_runs w runs latest_time latest_run) = Ret (time, run) /\
    ((time = latest_time /\ run = latest_run /\
      forall r t, In r runs -> os_path_getmtime w r = Returns t ->
                  (t <= latest_time)%Z)
     \/ ((latest_time < time)%Z /\
         exists before selected after,
           runs = (before ++ selected :: after)%list /\
           run = Some selected /\
           os_path_getmtime w selected = Returns time /\
           (forall r t, In r before -> os_path_getmtime w r = Returns t ->
                        (t < time)%Z) /\
           (forall r t, In r after -> os_path_getmtime w r = Returns t ->
                        (t <= time)%Z))).
Proof.
  revert latest_time latest_run.
  induction runs as [| r rest IH]; intros latest_time latest_run Hread.
  - exists latest_time, latest_run. split; [reflexivity | left].
    repeat split. intros r t [].
  - destruct (Hread r (or_introl eq_refl)) as [tr Htr].
    assert (Hrest : forall r', In r' rest ->
                               exists t, os_path_getmtime w r' = Returns t)
      by (intros r' Hin; apply Hread; now right).
    simpl. rewrite result_bind. unfold call. cbn [result snd]. rewrite Htr.
    destruct (latest_time <? tr)%Z eqn:Hlt.
    + apply Z.ltb_lt in Hlt.
      destruct (IH tr (Some r) Hrest) as (time & run & Hres & Hcase).
      exists time, run. split; [assumption | right].
      destruct Hcase as [(-> & -> & Hall)
                        | (Hgt & before & sel & after & -> & -> & Hsel & Hb & Ha)].
      * split; [assumption |]. exists [], r, rest.
        repeat split; try assumption. intros r' t [].
      * split; [lia |]. exists (r :: before), sel, after.
        repeat split; try assumption.
        intros r' t [<- | Hin] Ht; [| now apply (Hb r')].
        rewrite Htr in Ht. injection Ht as <-. assumption.
    + apply Z.ltb_ge in Hlt.
      destruct (IH latest_time latest_run Hrest) as (time & run & Hres & Hcase).
      exists time, run. split; [assumption |].
      destruct Hcase as [(-> & -> & Hall)
                        | (Hgt & before & sel & after & -> & -> & Hsel & Hb & Ha)].
      * left. repeat split.
        intros r' t [<- | Hin] Ht; [| now apply (Hall r')].
        rewrite Htr in Ht. injection Ht as <-. assumption.
      * right. split; [assumption |]. exists (r :: before), sel, after.
        repeat split; try assumption.
        intros r' t [<- | Hin] Ht; [| now apply (Hb r')].
        rewrite Htr in Ht. injection Ht as <-. lia.
Qed.

(** From the time 0 and no run: an entry is selected exactly when some
    entry was modified after the epoch, and then it is the first of the
    latest. *)
Lemma scan_runs_from_epoch w runs :
  (forall r, In r runs -> exists t, os_path_getmtime w r = Returns t) ->
  (exists time,
     result (scan_runs w runs 0 None) = Ret (time, None) /\
     forall r t, In r runs -> os_path_getmtime w r = Returns t -> (t <= 0)%Z)
  \/ (exists time before selected after,
        result (scan_runs w runs 0 None) = Ret (time, Some selected) /\
        (0 < time)%Z /\
        runs = (before ++ selected :: after)%list /\
        os_path_getmtime w selected = Returns time /\
        (forall r t, In r before -> os_path_getmtime w r = Returns t ->
                     (t < time)%Z) /\
        (forall r t, In r after -> os_path_getmtime w r = Returns t ->
                     (t <= time)%Z)).
Proof.
  intros Hread.
  destruct (scan_runs_first_max w runs 0 None Hread) as (time & run & Hres & Hcase).
  destruct Hcase as [(-> & -> & Hall)
                    | (Hgt & before & sel & after & Hruns & -> & Hsel & Hb & Ha)].
  - left. exists 0%Z. now split.
  - right. exists time, before, sel, after. repeat split; assumption.
Qed.

(** Entries of distinct modification times, one of them modified after
    the epoch: the scan selects the same entry, the one of the greatest time,
    in whatever order the entries are listed. *)
Lemma scan_runs_order_independent w runs runs' :
  Permutation runs runs' ->
  (forall r, In r runs -> exists t, os_path_getmtime w r = Returns t) ->
  (forall r r', In r runs -> In r' runs ->
                os_path_getmtime w r = os_path_getmtime w r' -> r = r') ->
  (exists r t, In r runs /\ os_path_getmtime w r = Returns t /\ (0 < t)%Z) ->
  exists time selected,
    result (scan_runs w runs 0 None) = Ret (time, Some selected) /\
    result (scan_runs w runs' 0 None) = Ret (time, Some selected) /\
    In selected runs /\
    os_path_getmtime w selected = Returns time /\
    forall r t, In r runs -> os_path_getmtime w r = Returns t ->
                r <> selected -> (t < time)%Z.
Proof.
  intros Hperm Hread Hdistinct (r0 & t0 & Hin0 & Ht0 & Hpos).
  assert (Hread' : forall r, In r runs' ->
                             exists t, os_path_getmtime w r = Returns t).
  { intros r Hin. apply Hread. now apply Permutation_sym, Permutation_in with (x := r) in Hperm. }
  destruct (scan_runs_from_epoch w runs Hread)
    as [(time & _ & Hall) | (time & b & sel & a & Hres & _ & Hruns & Hsel & Hb & Ha)].
  { specialize (Hall r0 t0 Hin0 Ht0). lia. }
  destruct (scan_runs_from_epoch w runs' Hread')
    as [(time' & _ & Hall)
       | (time' & b' & sel' & a' & Hres' & _ & Hruns' & Hsel' & Hb' & Ha')].
  { assert (Hin0' : In r0 runs') by now apply Permutation_in with (l := runs).
    specialize (Hall r0 t0 Hin0' Ht0). lia. }
  assert (Hle : forall l b s a time,
             l = (b ++ s :: a)%list ->
             os_path_getmtime w s = Returns time ->
             (forall r t, In r b -> os_path_getmtime w r = Returns t -> (t < time)%Z) ->
             (forall r t, In r a -> os_path_getmtime w r = Returns t -> (t <= time)%Z) ->
             forall r t, In r l -> os_path_getmtime w r = Returns t -> (t <= time)%Z).
  { intros l bb s aa tm -> Hs Hbb Haa r t Hin Ht.
    apply in_app_or in Hin as [Hin | [<- | Hin]].
    - specialize (Hbb r t Hin Ht). lia.
    - rewrite Hs in Ht. injection Ht as <-. lia.
    - now apply (Haa r). }
  assert (Hin_sel : In sel runs) by (rewrite Hruns; apply in_or_app; right; now left).
  assert (Hin_sel' : In sel' runs') by (rewrite Hruns'; apply in_or_app; right; now left).
  assert (Hin_sel'0 : In sel' runs)
    by now apply Permutation_sym, Permutation_in with (x := sel') in Hperm.
  assert (Hin_sel0' : In sel runs') by now apply Permutation_in with (l := runs).
  assert (Htime : time = time').
  { pose proof (Hle _ _ _ _ _ Hruns Hsel Hb Ha sel' time' Hin_sel'0 Hsel').
    pose proof (Hle _ _ _ _ _ Hruns' Hsel' Hb' Ha' sel time Hin_sel0' Hsel).
    lia. }
  subst time'.
  assert (Hsame : sel = sel').
  { apply Hdistinct; try assumption. now rewrite Hsel, Hsel'. }
  subst sel'.
  exists time, sel. repeat split; try assumption.
  intros r t Hin Ht Hneq.
  pose proof (Hle _ _ _ _ _ Hruns Hsel Hb Ha r t Hin Ht) as Hbound.
  destruct (Z.eq_dec t time) as [-> | Hne]; [| lia].
  exfalso. apply Hneq. apply Hdistinct; try assumption. now rewrite Ht, Hsel.
Qed.

(** Under [--last-run], when every modification time can be read, [cli]
    reports that no runs were found exactly when no listed entry was
    modified after the epoch. *)
Lemma resolve_run_tag_no_runs w design_dir run_tag :
  let runs := glob_glob w (posixpath.join design_dir ["runs"; "*"]) in
  (forall r, In r runs -> exists t, os_path_getmtime w r = Returns t) ->
  (result (resolve_run_tag w design_dir true run_tag) = Exit 1 <->
   forall r t, In r runs -> os_path_getmtime w r = Returns t -> (t <= 0)%Z).
Proof.
  intros runs Hread. rewrite resolve_run_tag_last. fold runs.
  destruct (scan_runs_from_epoch w runs Hread)
    as [(time & Hres & Hall) | (time & b & sel & a & Hres & Hpos & Hruns & Hsel & _)];
    rewrite Hres.
  - tauto.
  - split; [discriminate |]. intros Hall.
    assert (Hin : In sel runs) by (rewrite Hruns; apply in_or_app; right; now left).
    specialize (Hall sel time Hin Hsel). lia.
Qed.

(** C3, on the code as it is: a runs directory whose only entry was last
    modified at the epoch. The entry has the greatest modification time of
    the directory, and the scan, which starts from the time 0 and keeps an
    entry only when its time is greater, ends with no run. *)
Lemma epoch_run_not_selected :
  glob_glob (sample_world classic_config epoch_run (Returns tt))
    (posixpath.join "design" ["runs"; "*"]) = ["design/runs/RUN_1"]
  /\ os_path_getmtime (sample_world classic_config epoch_run (Returns tt))
       "design/runs/RUN_1" = Returns 0%Z
  /\ scan_runs (sample_world classic_config epoch_run (Returns tt))
       ["design/runs/RUN_1"] 0 None
     = ([CallGetmtime "design/runs/RUN_1"], Ret (0%Z, None)).
Proof. repeat split. Qed.

(** C4, on the code as it is: with that runs directory, which holds a
    run, [--last-run] ends with the diagnostic that no runs were found and
    exit code 1. *)
Lemma epoch_run_reported_missing :
  cli (sample_world classic_config epoch_run (Returns tt))
    (sample_args None None true None)
  = ([CallConfigLoad "design/config.json" None "sky130A" None [];
      CallFactoryGet "Classic";
      CallFlowInit {| flow_class_handle := 0 |} classic_config "design";
      CallGlob "design/runs/*";
      CallGetmtime "design/runs/RUN_1";
      Err "--last-run specified, but no runs found."],
     Exit 1).
Proof. reflexivity. Qed.

(** ** Sample runs *)

Example last_run_resumes_latest :
  cli (sample_world classic_config two_runs (Returns tt))
    (sample_args None None true None)
  = ([CallConfigLoad "design/config.json" None "sky130A" None [];
      CallFactoryGet "Classic";
      CallFlowInit {| flow_class_handle := 0 |} classic_config "design";
      CallGlob "design/runs/*";
      CallGetmtime "design/runs/RUN_1";
      CallGetmtime "design/runs/RUN_2";
      CallStart {| flow_handle := 0 |} (Some "RUN_2") None None None],
     Ret tt).
Proof. reflexivity. Qed.

Example empty_runs_directory :
  cli (sample_world classic_config [] (Returns tt))
    (sample_args None None true None)
  = ([CallConfigLoad "design/config.json" None "sky130A" None [];
      CallFactoryGet "Classic";
      CallFlowInit {| flow_class_handle := 0 |} classic_config "design";
      CallGlob "design/runs/*";
      Err "--last-run specified, but no runs found."],
     Exit 1).
Proof. reflexivity. Qed.

Example initial_state_read :
  cli (sample_world classic_config [] (Returns tt))
    (sample_args None None false (Some "state_in.json"))
  = ([CallConfigLoad "design/config.json" None "sky130A" None [];
      CallFactoryGet "Classic";
      CallFlowInit {| flow_class_handle := 0 |} classic_config "design";
      CallOpenRead "state_in.json";
      CallStateLoads "{}";
      CallStart {| flow_handle := 0 |} None None None
        (Some {| state_handle := 0 |})],
     Ret tt).
Proof. reflexivity. Qed.

Example initial_state_malformed :
  cli (sample_world classic_config [] (Returns tt))
    (sample_args None None false (Some "broken.json"))
  = ([CallConfigLoad "design/config.json" None "sky130A" None [];
      CallFactoryGet "Classic";
      CallFlowInit {| flow_class_handle := 0 |} classic_config "design";
      CallOpenRead "broken.json";
      CallStateLoads "{"],
     Raise (ValueError "Expecting value")).
Proof. reflexivity. Qed.

Example initial_state_unreadable :
  exit_code (cli (sample_world classic_config [] (Returns tt))
               (sample_args None None false (Some "missing.json"))) = 1%Z
  /\ result (cli (sample_world classic_config [] (Returns tt))
               (sample_args None None false (Some "missing.json")))
     = Raise (OSError "No such file or directory").
Proof. split; reflexivity. Qed.

Example unexpected_engine_error :
  cli (sample_world classic_config [] (Raises (FlowException "No such step")))
    (sample_args (Some "Classic") None false None)
  = ([CallConfigLoad "design/config.json" None "sky130A" None [];
      CallFactoryGet "Classic";
      CallFlowInit {| flow_class_handle := 0 |} classic_config "design";
      CallStart {| flow_handle := 0 |} None None None None;
      Err "The flow has encountered an unexpected error: No such step";
      Err "OpenLane will now quit."],
     Exit 1).
Proof. reflexivity. Qed.

Example misnamed_flow_in_configuration :
  main (sample_world misnamed_config [] (Returns tt))
    (sample_args None None false None)
  = ([CallConfigLoad "design/config.json" None "sky130A" None [];
      CallFactoryGet "Clasic";
      Err "Unknown flow 'Clasic' specified in configuration's 'meta' object."],
     Exit 1).
Proof. reflexivity. Qed.

(** ** Traces of composed computations *)

Lemma trace_bind A B (m : M A) (k : A -> M B) :
  trace (bind m k) =
  (trace m ++ match result m with
              | Ret x => trace (k x)
              | _ => []
              end)%list.
Proof.
  destruct m as [t [x | code | e]]; unfold bind; simpl;
    try (now rewrite app_nil_r).
  now destruct (k x).
Qed.

(** A loop that prints each element prints them all, in order, and
    returns. *)
Lemma for_each_print (xs : list string) (line : string -> Event) :
  for_each xs (fun x => emit (line x)) = (map line xs, Ret tt).
Proof.
  induction xs as [| x rest IH]; [reflexivity |].
  simpl. rewrite IH. reflexivity.
Qed.

(** A run in which a stage before [flow.start] does not return ends as
    that stage does. *)
Lemma cli_load_fails w a :
  andb (is_not_None (run_tag a)) (last_run a) = false ->
  (forall c, result (load_config w a) <> Ret c) ->
  cli w a = (trace (load_config w a),
             match result (load_config w a) with
             | Ret _ => Exit 1
             | Exit code => Exit code
             | Raise e => Raise e
             end).
Proof.
  intros Hx Hfail. unfold cli. rewrite Hx, bind_ret.
  destruct (load_config w a) as [t [c | code | e]]; simpl in *;
    [now destruct (Hfail c) | reflexivity | reflexivity].
Qed.

(** A run up to the initial state: what is left is run resolution and
    the start of the flow. *)
Lemma cli_after_state w a config_in design_dir target flow state :
  andb (is_not_None (run_tag a)) (last_run a) = false ->
  result (load_config w a) = Ret (config_in, design_dir) ->
  result (TargetFlow w (flow_description (flow_name a) config_in)) = Ret target ->
  Flow_init w target config_in design_dir = Returns flow ->
  result (initial_state w (initial_state_json a)) = Ret state ->
  let rest :=
    tag <- resolve_run_tag w design_dir (last_run a) (run_tag a) ;;
    start_flow w flow tag (frm a) (to a) state in
  cli w a =
  ((trace (load_config w a)
    ++ trace (TargetFlow w (flow_description (flow_name a) config_in))
    ++ [CallFlowInit target config_in design_dir]
    ++ trace (initial_state w (initial_state_json a))
    ++ trace rest)%list,
   result rest).
Proof.
  intros Hx Hload Htarget Hinit Hstate rest.
  unfold cli. rewrite Hx, bind_ret.
  destruct (load_config w a) as [t1 r1]; simpl in Hload; subst r1.
  unfold bind at 1. cbv beta iota.
  destruct (TargetFlow w _) as [t2 r2]; simpl in Htarget; subst r2.
  unfold bind at 1, call. rewrite Hinit.
  destruct (initial_state w _) as [t3 r3]; simpl in Hstate; subst r3.
  unfold bind at 1 2. fold rest. destruct rest as [t4 r4].
  reflexivity.
Qed.

(** ** Exit codes *)

(** X1. The exit code of a run of [cli] is 0, 1 or 2. It is 0 exactly
    when [flow.start] was called and returned, 2 exactly when [flow.start]
    was called and raised a [FlowError]; every other run, whichever stage it
    stopped at, ends with code 1. *)
Theorem exit_code_of_run w a :
  (exit_code (cli w a) = 0 <->
   exists flow tag state,
     In (CallStart flow tag (frm a) (to a) state) (trace (cli w a)) /\
     Flow_start w flow tag (frm a) (to a) state = Returns tt)
  /\ (exit_code (cli w a) = 2 <->
      exists flow tag state msg,
        In (CallStart flow tag (frm a) (to a) state) (trace (cli w a)) /\
        Flow_start w flow tag (frm a) (to a) state = Raises (FlowError msg))
  /\ (exit_code (cli w a) = 0 \/ exit_code (cli w a) = 1
      \/ exit_code (cli w a) = 2).
Proof.
  assert (Hstarted : forall flow tag state,
             In (CallStart flow tag (frm a) (to a) state) (trace (cli w a)) ->
             exit_code (cli w a) =
             exit_code (start_flow w flow tag (frm a) (to a) state)).
  { intros flow tag state H.
    apply cli_start_inv in H as (_ & _ & c & d & target & Hreach).
    now rewrite (cli_reaches_start Hreach). }
  assert (Hcode : forall flow tag state,
             exit_code (start_flow w flow tag (frm a) (to a) state) =
             match Flow_start w flow tag (frm a) (to a) state with
             | Returns _ => 0
             | Raises (FlowError _) => 2
             | Raises _ => 1
             end).
  { intros flow tag state. rewrite start_flow_run.
    destruct (Flow_start w flow tag (frm a) (to a) state) as [[] | e];
      [| destruct e]; reflexivity. }
  destruct (cli_cases w a)
    as [(c & d & target & flow & state & tag & Hreach) | Hone].
  - pose proof (cli_calls_start Hreach) as Hin.
    pose proof (Hstarted _ _ _ Hin) as Heq. rewrite Hcode in Heq.
    split; [| split].
    + split.
      * intros H0. exists flow, tag, state. split; [assumption |].
        rewrite Heq in H0.
        destruct (Flow_start w flow tag (frm a) (to a) state) as [[] | e];
          [reflexivity | destruct e; discriminate].
      * intros (flow' & tag' & state' & Hin' & Hret).
        rewrite (Hstarted _ _ _ Hin'), Hcode, Hret. reflexivity.
    + split.
      * intros H2. exists flow, tag, state. rewrite Heq in H2.
        destruct (Flow_start w flow tag (frm a) (to a) state) as [[] | e];
          [discriminate | destruct e; try discriminate].
        exists msg. now split.
      * intros (flow' & tag' & state' & msg & Hin' & Hraise).
        rewrite (Hstarted _ _ _ Hin'), Hcode, Hraise. reflexivity.
    + rewrite Heq.
      destruct (Flow_start w flow tag (frm a) (to a) state) as [[] | e];
        [| destruct e]; auto.
  - split; [| split].
    + split; [rewrite Hone; discriminate |].
      intros (flow & tag & state & Hin & Hret).
      rewrite (Hstarted _ _ _ Hin), Hcode, Hret in Hone. discriminate.
    + split; [rewrite Hone; discriminate |].
      intros (flow & tag & state & msg & Hin & Hraise).
      rewrite (Hstarted _ _ _ Hin), Hcode, Hraise in Hone. discriminate.
    + auto.
Qed.

(** ** Failures of [ConfigBuilder.load] *)

(** X2. When [ConfigBuilder.load] raises [InvalidConfig], the run is the
    call, the heading that names [e.config], every error of [e.errors] in
    order, then, when there are warnings, their heading and every warning of
    [e.warnings] in order, then the closing notice; [cli] exits with code 1
    and does nothing else. *)
Theorem invalid_config_report w a config errors warnings :
  andb (is_not_None (run_tag a)) (last_run a) = false ->
  ConfigBuilder_load w (config_file a) (pdk_root a) (pdk a) (scl a)
    (config_override_strings a) = Raises (InvalidConfig config errors warnings) ->
  cli w a =
  (([CallConfigLoad (config_file a) (pdk_root a) (pdk a) (scl a)
       (config_override_strings a);
     Log ("[green]Errors have occurred while loading the " ++ config ++ ":")]
    ++ map Err errors
    ++ match warnings with
       | [] => []
       | _ :: _ =>
           Log "The following warnings have also been generated:"
           :: map Warn warnings
       end
    ++ [Log "OpenLane will now quit. Please check your configuration."])%list,
   Exit 1).
Proof.
  intros Hx Hload.
  assert (Hres : result (load_config w a) = Exit 1)
    by (rewrite load_config_result; now rewrite Hload).
  rewrite (cli_load_fails _ _ Hx) by (intros c; rewrite Hres; discriminate).
  rewrite Hres. f_equal.
  unfold load_config, call. rewrite Hload.
  erewrite trace_try_except_Raise by reflexivity.
  unfold bind, err, warn. rewrite (for_each_print errors Err).
  destruct warnings as [| warning rest].
  - reflexivity.
  - cbn [List.length Nat.ltb Nat.leb].
    rewrite (for_each_print (warning :: rest) Warn). reflexivity.
Qed.

Lemma invalid_config_report_witness :
  exit_code
    (cli (unloadable_world
            (InvalidConfig "configuration file"
               ["Unknown key FOO"; "CLOCK_PERIOD is not a number"]
               ["DESIGN_NAME is deprecated"]))
       (sample_args None None false None)) = 1.
Proof.
  exact (f_equal (fun m => exit_code m)
           (@invalid_config_report
              (unloadable_world
                 (InvalidConfig "configuration file"
                    ["Unknown key FOO"; "CLOCK_PERIOD is not a number"]
                    ["DESIGN_NAME is deprecated"]))
              (sample_args None None false None)
              "configuration file"
              ["Unknown key FOO"; "CLOCK_PERIOD is not a number"]
              ["DESIGN_NAME is deprecated"] eq_refl eq_refl)).
Defined.

(** X3. Whatever [ConfigBuilder.load] raises, the process ends with
    code 1 and the run holds nothing but the call and printed lines: no flow
    is resolved, no file read, no directory listed, no flow started. A
    [ValueError] is printed by its message, followed by the notice that
    OpenLane quits; an exception of a class other than [InvalidConfig] and
    [ValueError] is not caught and nothing is printed. *)
Theorem config_failure_stops_run w a e :
  andb (is_not_None (run_tag a)) (last_run a) = false ->
  ConfigBuilder_load w (config_file a) (pdk_root a) (pdk a) (scl a)
    (config_override_strings a) = Raises e ->
  exit_code (cli w a) = 1
  /\ (forall ev,
        In ev (trace (cli w a)) ->
        callee ev = ConfigBuilderLoad \/ callee ev = Printer)
  /\ (forall msg,
        e = ValueError msg ->
        cli w a =
        ([CallConfigLoad (config_file a) (pdk_root a) (pdk a) (scl a)
            (config_override_strings a);
          Err msg; Log "OpenLane will now quit."], Exit 1))
  /\ ((forall config errors warnings, e <> InvalidConfig config errors warnings) ->
      (forall msg, e <> ValueError msg) ->
      cli w a =
      ([CallConfigLoad (config_file a) (pdk_root a) (pdk a) (scl a)
          (config_override_strings a)], Raise e)).
Proof.
  intros Hx Hload.
  assert (Hres : result (load_config w a) =
                 match e with
                 | InvalidConfig _ _ _ | ValueError _ => Exit 1
                 | _ => Raise e
                 end)
    by (rewrite load_config_result; now rewrite Hload).
  assert (Hfail : forall c, result (load_config w a) <> Ret c)
    by (intros c; rewrite Hres; destruct e; discriminate).
  rewrite (cli_load_fails _ _ Hx Hfail).
  split; [| split; [| split]].
  - unfold exit_code, result at 1. cbn [snd]. rewrite Hres. now destruct e.
  - intros ev H. cbn [trace fst] in H.
    apply load_config_events in H as [-> | H]; [now left | now right].
  - intros msg ->. rewrite Hres. f_equal.
    unfold load_config, call. rewrite Hload. reflexivity.
  - intros Hinv Hval. rewrite Hres.
    unfold load_config, call. rewrite Hload.
    destruct e; try reflexivity.
    + now destruct (Hinv config errors warnings).
    + now destruct (Hval msg).
Qed.

Lemma config_failure_stops_run_witness :
  cli (unloadable_world (ValueError "Invalid JSON in override FOO=notjson"))
    (sample_args None None true None)
  = ([CallConfigLoad "design/config.json" None "sky130A" None [];
      Err "Invalid JSON in override FOO=notjson";
      Log "OpenLane will now quit."], Exit 1).
Proof.
  exact (proj1 (proj2 (proj2
           (@config_failure_stops_run
              (unloadable_world (ValueError "Invalid JSON in override FOO=notjson"))
              (sample_args None None true None)
              (ValueError "Invalid JSON in override FOO=notjson")
              eq_refl eq_refl)))
           "Invalid JSON in override FOO=notjson" eq_refl).
Defined.

(** ** The call of [flow.start] *)

Lemma events_before_start_callee w a config_in design_dir target ev :
  In ev (events_before_start w a config_in design_dir target) ->
  callee ev <> FlowStart.
Proof.
  unfold events_before_start. rewrite !in_app_iff.
  intros [H | [H | [H | [H | H]]]].
  - apply load_config_events in H as [-> | H]; [discriminate | now rewrite H].
  - apply TargetFlow_events in H.
    destruct (flow_description (flow_name a) config_in);
      [destruct H as [-> | [_ ->]] | subst ev]; discriminate.
  - destruct H as [<- | []]. discriminate.
  - apply initial_state_events in H as (p & _ & [-> | (text & _ & ->)]);
      discriminate.
  - apply resolve_run_tag_events in H as (_ & [H | [H | ->]]);
      try (rewrite H); discriminate.
Qed.

(** X4. [flow.start] is called at most once in a run, and it is the
    last call [cli] makes: before it there is no other call of it, and after
    it there are only printed lines. *)
Theorem start_is_called_once_and_last w a flow tag f t state :
  In (CallStart flow tag f t state) (trace (cli w a)) ->
  exists before after,
    trace (cli w a) = (before ++ CallStart flow tag f t state :: after)%list /\
    (forall ev, In ev before -> callee ev <> FlowStart) /\
    (forall ev, In ev after -> callee ev = Printer).
Proof.
  intros H.
  apply cli_start_inv in H as (-> & -> & config_in & design_dir & target & Hreach).
  rewrite (cli_reaches_start Hreach). cbn [trace fst].
  exists (events_before_start w a config_in design_dir target).
  rewrite start_flow_run.
  destruct (Flow_start w flow tag (frm a) (to a) state) as [[] | e];
    [| destruct e]; cbn [fst];
    eexists; (split; [reflexivity |]);
    (split; [intros ev; apply events_before_start_callee |]);
    intros ev Hin; simpl in Hin;
    repeat (destruct Hin as [<- | Hin]; [reflexivity |]); destruct Hin.
Qed.

Lemma start_is_called_once_and_last_witness :
  exists before after,
    trace (cli (sample_world classic_config two_runs (Raises (FlowError "Step failed")))
             (sample_args None None true None))
    = (before ++ CallStart {| flow_handle := 0 |} (Some "RUN_2") None None None
              :: after)%list /\
    (forall ev, In ev before -> callee ev <> FlowStart) /\
    (forall ev, In ev after -> callee ev = Printer).
Proof.
  apply (@start_is_called_once_and_last
           (sample_world classic_config two_runs (Raises (FlowError "Step failed")))
           (sample_args None None true None)).
  vm_compute. auto 10.
Defined.

(** X5. Every call of [flow.start] is given [--from] and [--to] as they
    were given to [cli], on the flow object the constructor returned for the
    resolved flow class, the loaded configuration and its design directory;
    the class is what [Flow.factory.get] returned for the name of the flow
    description, or what [SequentialFlow.make] returned for its step ids. *)
Theorem start_arguments w a flow0 tag f t state :
  In (CallStart flow0 tag f t state) (trace (cli w a)) ->
  f = frm a /\ t = to a /\
  exists config_in design_dir target,
    ConfigBuilder_load w (config_file a) (pdk_root a) (pdk a) (scl a)
      (config_override_strings a) = Returns (config_in, design_dir) /\
    match flow_description (flow_name a) config_in with
    | FlowName name => Flow_factory_get w name = Some target
    | FlowSteps step_ids => SequentialFlow_make w step_ids = Returns target
    end /\
    Flow_init w target config_in design_dir = Returns flow0 /\
    In (CallFlowInit target config_in design_dir) (trace (cli w a)).
Proof.
  intros H.
  apply cli_start_inv in H as (-> & -> & config_in & design_dir & target & Hreach).
  pose proof Hreach as (Hx & Hload & Htarget & Hinit & Hstate & Htag).
  repeat split. exists config_in, design_dir, target.
  split; [| split; [| split; [assumption |]]].
  - rewrite load_config_result in Hload.
    destruct (ConfigBuilder_load w _ _ _ _ _) as [c | e];
      [congruence | destruct e; discriminate].
  - destruct (flow_description (flow_name a) config_in) as [name | step_ids].
    + destruct (Flow_factory_get w name) as [c |] eqn:Hget.
      * rewrite (TargetFlow_registered _ _ Hget) in Htarget. now injection Htarget as ->.
      * rewrite (TargetFlow_unknown _ _ Hget) in Htarget. discriminate.
    + rewrite TargetFlow_steps in Htarget. unfold call, result in Htarget.
      cbn [snd] in Htarget.
      destruct (SequentialFlow_make w step_ids); congruence.
  - apply cli_stage_events; [assumption |].
    right. exists config_in, design_dir. split; [assumption | right].
    exists target. split; [assumption | now left].
Qed.

Lemma start_arguments_witness :
  exists config_in design_dir target,
    ConfigBuilder_load (sample_world custom_config [] (Returns tt))
      "design/config.json" None "sky130A" None []
    = Returns (config_in, design_dir) /\
    match flow_description None config_in with
    | FlowName name =>
        Flow_factory_get (sample_world custom_config [] (Returns tt)) name
        = Some target
    | FlowSteps step_ids =>
        SequentialFlow_make (sample_world custom_config [] (Returns tt)) step_ids
        = Returns target
    end /\
    Flow_init (sample_world custom_config [] (Returns tt)) target config_in
      design_dir = Returns {| flow_handle := 0 |} /\
    In (CallFlowInit target config_in design_dir)
      (trace (cli (sample_world custom_config [] (Returns tt))
                (sample_args None None false None))).
Proof.
  refine (proj2 (proj2 (@start_arguments
                          (sample_world custom_config [] (Returns tt))
                          (sample_args None None false None)
                          {| flow_handle := 0 |} None None None None _))).
  vm_compute. auto 10.
Defined.

(** X6. With neither [--run-tag] nor [--last-run], every call of
    [flow.start] is given no tag, and the runs directory is neither listed
    nor are modification times read. *)
Theorem fresh_run_has_no_tag w a :
  run_tag a = None ->
  last_run a = false ->
  (forall flow tag f t state,
     In (CallStart flow tag f t state) (trace (cli w a)) -> tag = None)
  /\ (forall ev,
        In ev (trace (cli w a)) -> callee ev <> Glob /\ callee ev <> Getmtime).
Proof.
  intros Htag Hlast. split.
  - intros flow tag f t state H.
    apply cli_start_inv in H as (_ & _ & c & d & target & Hreach).
    destruct Hreach as (_ & _ & _ & _ & _ & H).
    rewrite Htag, Hlast in H. now injection H as <-.
  - intros ev H.
    split; intros Hc;
      (assert (Hl : last_run a = true) by (eapply cli_glob_inv; eauto));
      congruence.
Qed.

Lemma fresh_run_has_no_tag_witness :
  (forall flow tag f t state,
     In (CallStart flow tag f t state)
       (trace (cli (sample_world classic_config two_runs (Returns tt))
                 (sample_args None None false None))) ->
     tag = None)
  /\ (forall ev,
        In ev (trace (cli (sample_world classic_config two_runs (Returns tt))
                        (sample_args None None false None))) ->
        callee ev <> Glob /\ callee ev <> Getmtime).
Proof.
  exact (@fresh_run_has_no_tag
           (sample_world classic_config two_runs (Returns tt))
           (sample_args None None false None) eq_refl eq_refl).
Defined.

(** X7. When the flow description of the run is a name the registry
    knows, the registry is asked for exactly that name and for no other, the
    class it returns is the one instantiated on the configuration and the
    design directory, and [SequentialFlow.make] is not called. *)
Theorem registered_name_resolves_to_class w a config_in design_dir name target :
  andb (is_not_None (run_tag a)) (last_run a) = false ->
  result (load_config w a) = Ret (config_in, design_dir) ->
  flow_description (flow_name a) config_in = FlowName name ->
  Flow_factory_get w name = Some target ->
  In (CallFactoryGet name) (trace (cli w a))
  /\ (forall n, In (CallFactoryGet n) (trace (cli w a)) -> n = name)
  /\ (forall ev, In ev (trace (cli w a)) -> callee ev <> SequentialFlowMake)
  /\ In (CallFlowInit target config_in design_dir) (trace (cli w a))
  /\ (forall target' c d,
        In (CallFlowInit target' c d) (trace (cli w a)) ->
        target' = target /\ c = config_in /\ d = design_dir).
Proof.
  intros Hx Hload Hdesc Hget.
  assert (Hinv : forall ev,
             In ev (trace (cli w a)) ->
             callee ev = FlowFactory \/ callee ev = SequentialFlowMake ->
             ev = CallFactoryGet name).
  { intros ev H Hc.
    destruct (@cli_flow_resolution_inv _ _ _ H Hc) as (c & d & Hload' & Hev).
    rewrite Hload in Hload'. injection Hload' as <- <-.
    now rewrite Hdesc in Hev. }
  assert (Htarget : result (TargetFlow w (flow_description (flow_name a) config_in))
                    = Ret target)
    by now rewrite Hdesc, (TargetFlow_registered _ _ Hget).
  split; [| split; [| split; [| split]]].
  - apply cli_stage_events; [assumption |].
    right. exists config_in, design_dir. split; [assumption | left].
    rewrite Hdesc, (TargetFlow_registered _ _ Hget). now left.
  - intros n H. apply Hinv in H; [| now left]. now injection H.
  - intros ev H Hc. apply Hinv in H; [| now right]. now subst ev.
  - apply cli_stage_events; [assumption |].
    right. exists config_in, design_dir. split; [assumption | right].
    exists target. split; [assumption | now left].
  - intros target' c d H. apply cli_events in H.
    destruct H as [[_ H] | [H | (c' & d' & Hload' & H)]]; [discriminate | |].
    { apply load_config_events in H as [H | H]; discriminate. }
    rewrite Hload in Hload'. injection Hload' as <- <-.
    rewrite Hdesc, (TargetFlow_registered _ _ Hget) in H.
    destruct H as [[H | []] | (target'' & Ht & H)]; [discriminate |].
    injection Ht as <-.
    destruct H as [H | (flow' & _ & H)]; [now injection H as -> -> -> |].
    destruct H as [H | (state' & _ & H)].
    { apply initial_state_events in H as (p & _ & [H | (text & _ & H)]);
        discriminate. }
    destruct H as [H | (tag' & _ & H)].
    { apply resolve_run_tag_events in H as (_ & [H | [H | H]]); discriminate. }
    apply start_flow_events in H as [H | H]; discriminate.
Qed.

Lemma registered_name_resolves_to_class_witness :
  In (CallFlowInit {| flow_class_handle := 0 |} custom_config "design")
    (trace (cli (sample_world custom_config [] (Returns tt))
              (sample_args (Some "Classic") None false None))).
Proof.
  exact (proj1 (proj2 (proj2 (proj2
           (@registered_name_resolves_to_class
              (sample_world custom_config [] (Returns tt))
              (sample_args (Some "Classic") None false None)
              custom_config "design" "Classic" {| flow_class_handle := 0 |}
              eq_refl eq_refl eq_refl eq_refl))))).
Defined.

(** ** The order of the calls of a run *)

Lemma in_call_order_ranked n e1 e2 :
  ranked_upto n e1 -> ranked_from n e2 -> in_call_order e1 e2.
Proof.
  unfold ranked_upto, ranked_from, in_call_order.
  destruct (call_rank (callee e1)), (call_rank (callee e2)); auto. lia.
Qed.

Lemma ranked_from_le n m ev : (n <= m)%nat -> ranked_from m ev -> ranked_from n ev.
Proof.
  unfold ranked_from. destruct (call_rank (callee ev)); auto. lia.
Qed.

Lemma sorted_app (R : Event -> Event -> Prop) l1 l2 :
  StronglySorted R l1 -> StronglySorted R l2 ->
  (forall e1 e2, In e1 l1 -> In e2 l2 -> R e1 e2) ->
  StronglySorted R (l1 ++ l2).
Proof.
  intros H1 H2 Hcross. induction H1 as [| e l Hl IH He]; simpl; [assumption |].
  constructor.
  - apply IH. intros e1 e2 Hin1 Hin2. apply Hcross; [now right | assumption].
  - apply Forall_app. split; [assumption |].
    apply Forall_forall. intros e2 Hin2. apply Hcross; [now left | assumption].
Qed.

(** A stage whose events are of one rank, followed by a continuation of
    events of that rank or more, each in order, is in order. *)
Lemma sorted_bind A B (m : M A) (k : A -> M B) n :
  StronglySorted in_call_order (trace m) ->
  (forall ev, In ev (trace m) -> ranked_upto n ev) ->
  (forall x, result m = Ret x -> StronglySorted in_call_order (trace (k x))) ->
  (forall x ev, result m = Ret x -> In ev (trace (k x)) -> ranked_from n ev) ->
  StronglySorted in_call_order (trace (bind m k)).
Proof.
  intros Hm Hupto Hk Hfrom. rewrite trace_bind.
  destruct (result m) as [x | code | e] eqn:Hres;
    [| now rewrite app_nil_r | now rewrite app_nil_r].
  apply sorted_app; [assumption | now apply Hk |].
  intros e1 e2 H1 H2. apply in_call_order_ranked with n; [now apply Hupto |].
  now apply Hfrom with x.
Qed.

Lemma ranked_from_bind A B (m : M A) (k : A -> M B) n ev :
  (forall e, In e (trace m) -> ranked_from n e) ->
  (forall x e, result m = Ret x -> In e (trace (k x)) -> ranked_from n e) ->
  In ev (trace (bind m k)) -> ranked_from n ev.
Proof.
  intros Hm Hk H. apply in_trace_bind in H as [H | (x & Hx & H)]; eauto.
Qed.

(** Events of one rank, and printed lines, are in order whatever their
    order. *)
Lemma sorted_one_rank n l :
  (forall ev, In ev l -> ranked_from n ev /\ ranked_upto n ev) ->
  StronglySorted in_call_order l.
Proof.
  induction l as [| e l IH]; intros H; constructor.
  - apply IH. intros ev Hin. apply H. now right.
  - apply Forall_forall. intros e2 Hin.
    apply in_call_order_ranked with n; [apply H; now left | apply H; now right].
Qed.

Lemma load_config_ranked w a ev :
  In ev (trace (load_config w a)) -> ranked_from 1 ev /\ ranked_upto 1 ev.
Proof.
  intros H. apply load_config_events in H as [-> | H].
  - split; unfold ranked_from, ranked_upto; simpl; lia.
  - unfold ranked_from, ranked_upto. rewrite H. now split.
Qed.

Lemma TargetFlow_ranked w description ev :
  In ev (trace (TargetFlow w description)) ->
  ranked_from 2 ev /\ ranked_upto 2 ev.
Proof.
  intros H. apply TargetFlow_events in H.
  destruct description; [destruct H as [-> | [_ ->]] | subst ev];
    split; unfold ranked_from, ranked_upto; simpl; auto.
Qed.

Lemma initial_state_ranked w path ev :
  In ev (trace (initial_state w path)) ->
  ranked_from 4 ev /\ ranked_upto 5 ev.
Proof.
  intros H. apply initial_state_events in H as (p & _ & [-> | (text & _ & ->)]);
    split; unfold ranked_from, ranked_upto; simpl; lia.
Qed.

Lemma initial_state_sorted w path :
  StronglySorted in_call_order (trace (initial_state w path)).
Proof.
  destruct path as [p |]; [| constructor].
  unfold initial_state.
  apply sorted_bind with 4%nat.
  - apply sorted_one_rank with 4%nat. intros ev [<- | []].
    split; unfold ranked_from, ranked_upto; simpl; lia.
  - intros ev [<- | []]. unfold ranked_upto; simpl; lia.
  - intros text _. apply sorted_one_rank with 5%nat. intros ev H.
    apply in_trace_bind in H as [[<- | []] | (s & _ & [])].
    split; unfold ranked_from, ranked_upto; simpl; lia.
  - intros text ev _ H.
    apply in_trace_bind in H as [[<- | []] | (s & _ & [])].
    unfold ranked_from; simpl; lia.
Qed.

Lemma resolve_run_tag_ranked w design_dir last_run run_tag ev :
  In ev (trace (resolve_run_tag w design_dir last_run run_tag)) ->
  ranked_from 6 ev /\ ranked_upto 7 ev.
Proof.
  intros H. apply resolve_run_tag_events in H as (_ & [H | [H | ->]]);
    unfold ranked_from, ranked_upto; try rewrite H; simpl; split; auto; lia.
Qed.

Lemma resolve_run_tag_sorted w design_dir last_run run_tag :
  StronglySorted in_call_order
    (trace (resolve_run_tag w design_dir last_run run_tag)).
Proof.
  unfold resolve_run_tag. destruct last_run; [| constructor].
  apply sorted_bind with 6%nat.
  - apply sorted_one_rank with 6%nat. intros ev [<- | []].
    split; unfold ranked_from, ranked_upto; simpl; lia.
  - intros ev [<- | []]. unfold ranked_upto; simpl; lia.
  - intros runs _. apply sorted_one_rank with 7%nat. intros ev H.
    apply in_trace_bind in H as [H | ([time latest] & _ & H)].
    + apply scan_runs_events in H as (r & _ & ->).
      split; unfold ranked_from, ranked_upto; simpl; lia.
    + destruct latest; simpl in H; [destruct H |].
      destruct H as [<- | []]. now split.
  - intros runs ev _ H.
    apply in_trace_bind in H as [H | ([time latest] & _ & H)].
    + apply scan_runs_events in H as (r & _ & ->). unfold ranked_from; simpl; lia.
    + destruct latest; simpl in H; [destruct H |].
      destruct H as [<- | []]. exact I.
Qed.

Lemma start_flow_ranked w flow tag frm to state ev :
  In ev (trace (start_flow w flow tag frm to state)) ->
  ranked_from 8 ev /\ ranked_upto 8 ev.
Proof.
  intros H. apply start_flow_events in H as [-> | H].
  - split; unfold ranked_from, ranked_upto; simpl; lia.
  - unfold ranked_from, ranked_upto. rewrite H. now split.
Qed.

Lemma tail_tag_ranked w a design_dir flow state ev :
  In ev (trace (tag <- resolve_run_tag w design_dir (last_run a) (run_tag a) ;;
                start_flow w flow tag (frm a) (to a) state)) ->
  ranked_from 6 ev.
Proof.
  apply ranked_from_bind.
  - intros e H. now apply resolve_run_tag_ranked in H.
  - intros tag e _ H. apply start_flow_ranked in H as [H _].
    apply ranked_from_le with 8%nat; [lia | assumption].
Qed.

Lemma tail_state_ranked w a design_dir flow ev :
  In ev (trace (state <- initial_state w (initial_state_json a) ;;
                tag <- resolve_run_tag w design_dir (last_run a) (run_tag a) ;;
                start_flow w flow tag (frm a) (to a) state)) ->
  ranked_from 4 ev.
Proof.
  apply ranked_from_bind.
  - intros e H. now apply initial_state_ranked in H.
  - intros state e _ H. apply tail_tag_ranked in H.
    apply ranked_from_le with 6%nat; [lia | assumption].
Qed.

Lemma tail_init_ranked w a config_in design_dir target ev :
  In ev (trace (flow <- call (CallFlowInit target config_in design_dir)
                          (Flow_init w target config_in design_dir) ;;
                state <- initial_state w (initial_state_json a) ;;
                tag <- resolve_run_tag w design_dir (last_run a) (run_tag a) ;;
                start_flow w flow tag (frm a) (to a) state)) ->
  ranked_from 3 ev.
Proof.
  apply ranked_from_bind.
  - intros e [<- | []]. unfold ranked_from; simpl; lia.
  - intros flow e _ H. apply tail_state_ranked in H.
    apply ranked_from_le with 4%nat; [lia | assumption].
Qed.

Lemma tail_target_ranked w a config_in design_dir ev :
  In ev (trace (target <- TargetFlow w (flow_description (flow_name a) config_in) ;;
                flow <- call (CallFlowInit target config_in design_dir)
                          (Flow_init w target config_in design_dir) ;;
                state <- initial_state w (initial_state_json a) ;;
                tag <- resolve_run_tag w design_dir (last_run a) (run_tag a) ;;
                start_flow w flow tag (frm a) (to a) state)) ->
  ranked_from 2 ev.
Proof.
  apply ranked_from_bind.
  - intros e H. now apply TargetFlow_ranked in H.
  - intros target e _ H. apply tail_init_ranked in H.
    apply ranked_from_le with 3%nat; [lia | assumption].
Qed.

Lemma cli_sorted w a : StronglySorted in_call_order (trace (cli w a)).
Proof.
  destruct (andb (is_not_None (run_tag a)) (last_run a)) eqn:Hx.
  { rewrite (cli_mutually_exclusive _ _ Hx).
    apply sorted_one_rank with 0%nat. intros ev [<- | []]. now split. }
  unfold cli. rewrite Hx, bind_ret.
  apply sorted_bind with 1%nat.
  { apply sorted_one_rank with 1%nat. apply load_config_ranked. }
  { intros ev H. now apply load_config_ranked in H. }
  2: { intros [config_in design_dir] ev _ H. apply tail_target_ranked in H.
       apply ranked_from_le with 2%nat; [lia | assumption]. }
  intros [config_in design_dir] _.
  apply sorted_bind with 2%nat.
  { apply sorted_one_rank with 2%nat. apply TargetFlow_ranked. }
  { intros ev H. now apply TargetFlow_ranked in H. }
  2: { intros target ev _ H. apply tail_init_ranked in H.
       apply ranked_from_le with 3%nat; [lia | assumption]. }
  intros target _.
  apply sorted_bind with 3%nat.
  { apply sorted_one_rank with 3%nat. intros ev [<- | []].
    split; unfold ranked_from, ranked_upto; simpl; lia. }
  { intros ev [<- | []]. unfold ranked_upto; simpl; lia. }
  2: { intros flow ev _ H. apply tail_state_ranked in H.
       apply ranked_from_le with 4%nat; [lia | assumption]. }
  intros flow _.
  apply sorted_bind with 5%nat.
  { apply initial_state_sorted. }
  { intros ev H. now apply initial_state_ranked in H. }
  2: { intros state ev _ H. apply tail_tag_ranked in H.
       apply ranked_from_le with 6%nat; [lia | assumption]. }
  intros state _.
  apply sorted_bind with 7%nat.
  { apply resolve_run_tag_sorted. }
  { intros ev H. now apply resolve_run_tag_ranked in H. }
  2: { intros tag ev _ H. apply start_flow_ranked in H as [H _].
       apply ranked_from_le with 8%nat; [lia | assumption]. }
  intros tag _. apply sorted_one_rank with 8%nat. apply start_flow_ranked.
Qed.

(** X8. The calls of a run are made in one order: click's refusal of
    the option value, [ConfigBuilder.load], the flow registry or
    [SequentialFlow.make], the constructor of the flow, the read of the
    state file, [State.loads], the listing of the runs directory, the reads
    of modification times, [flow.start]. No call of an earlier kind follows
    one of a later kind; printed lines come in between. *)
Theorem calls_are_in_order w argv :
  StronglySorted in_call_order (trace (main w argv)).
Proof.
  destruct (main_cases w argv)
    as [(value & _ & _ & ->) | [(_ & ->) | (choice & _ & ->)]].
  - apply sorted_one_rank with 0%nat. intros ev [<- | []].
    split; unfold ranked_from, ranked_upto; simpl; lia.
  - apply cli_sorted.
  - apply cli_sorted.
Qed.

(** The events of [load_config]: the call, then printed lines. *)
Lemma load_config_trace w a :
  exists lines,
    trace (load_config w a) =
    CallConfigLoad (config_file a) (pdk_root a) (pdk a) (scl a)
      (config_override_strings a) :: lines /\
    forall ev, In ev lines -> callee ev = Printer.
Proof.
  unfold load_config, call.
  destruct (ConfigBuilder_load w _ _ _ _ _) as [c | e].
  - exists []. split; [reflexivity | intros ev []].
  - destruct e;
      try (exists []; split; [reflexivity | intros ev []]).
    + erewrite trace_try_except_Raise by reflexivity.
      eexists. split; [reflexivity |].
      intros ev H. split_bind H; try printer_event H.
      * eapply in_trace_printers; [| exact H].
        intros msg e H'. printer_event H'.
      * destruct (Nat.ltb 0 (List.length warnings)); [| destruct H].
        split_bind H; try printer_event H.
        eapply in_trace_printers; [| exact H].
        intros msg e H'. printer_event H'.
      * destruct H.
    + eexists. split; [reflexivity |].
      intros ev [<- | [<- | []]]; reflexivity.
Qed.

(** X9. Past the mutual exclusion test, the first thing [cli] does is to
    call [ConfigBuilder.load] with the configuration file, the PDK root, the
    PDK, the standard cell library and the override strings as they were
    given; it is called once in the run. *)
Theorem configuration_is_loaded_first w a :
  andb (is_not_None (run_tag a)) (last_run a) = false ->
  exists rest,
    trace (cli w a) =
    CallConfigLoad (config_file a) (pdk_root a) (pdk a) (scl a)
      (config_override_strings a) :: rest /\
    forall ev, In ev rest -> callee ev <> ConfigBuilderLoad.
Proof.
  intros Hx. unfold cli. rewrite Hx, bind_ret, trace_bind.
  destruct (load_config_trace w a) as (lines & -> & Hlines).
  eexists. split; [reflexivity |].
  intros ev H. apply in_app_or in H as [H | H].
  - rewrite (Hlines _ H). discriminate.
  - destruct (result (load_config w a)) as [[config_in design_dir] | code | e];
      try destruct H.
    apply tail_target_ranked in H. unfold ranked_from in H.
    intros Hc. rewrite Hc in H. simpl in H. lia.
Qed.

Lemma configuration_is_loaded_first_witness :
  exists rest,
    trace (cli (sample_world classic_config two_runs (Returns tt))
             (sample_args (Some "Classic") (Some "RUN_1") false
                (Some "state_in.json")))
    = CallConfigLoad "design/config.json" None "sky130A" None [] :: rest /\
    forall ev, In ev rest -> callee ev <> ConfigBuilderLoad.
Proof.
  exact (@configuration_is_loaded_first
           (sample_world classic_config two_runs (Returns tt))
           (sample_args (Some "Classic") (Some "RUN_1") false
              (Some "state_in.json")) eq_refl).
Defined.

(** ** [--last-run] in a run of [cli] *)

(** The scan depends on the world through the modification times only. *)
Lemma scan_runs_ext w w' runs latest_time latest_run :
  (forall p, os_path_getmtime w' p = os_path_getmtime w p) ->
  scan_runs w' runs latest_time latest_run = scan_runs w runs latest_time latest_run.
Proof.
  intros Hext. revert latest_time latest_run.
  induction runs as [| r rest IH]; intros latest_time latest_run; [reflexivity |].
  simpl. rewrite Hext. unfold bind, call.
  destruct (os_path_getmtime w r) as [t | e]; [| reflexivity].
  destruct (latest_time <? t)%Z; now rewrite IH.
Qed.

(** A scan that comes to an entry whose modification time cannot be
    read stops there with the exception. *)
Lemma scan_runs_raises w before r after e latest_time latest_run :
  (forall p, In p before -> exists t, os_path_getmtime w p = Returns t) ->
  os_path_getmtime w r = Raises e ->
  scan_runs w (before ++ r :: after) latest_time latest_run =
  (map CallGetmtime (before ++ [r]), Raise e).
Proof.
  intros Hread Hr. revert latest_time latest_run.
  induction before as [| p before IH]; intros latest_time latest_run; simpl.
  - unfold bind, call. now rewrite Hr.
  - destruct (Hread p (or_introl eq_refl)) as [t Ht].
    assert (Hrest : forall q, In q before ->
                              exists t, os_path_getmtime w q = Returns t)
      by (intros q Hq; apply Hread; now right).
    unfold bind, call. rewrite Ht.
    destruct (latest_time <? t)%Z; now rewrite (IH Hrest).
Qed.

(** X10. Under [--last-run], when the stages before run resolution
    succeed, every listed entry has a modification time and one of them was
    modified after the epoch, [flow.start] is called with the base name of
    the first listed entry of the greatest modification time: every entry
    listed before it is older, none listed after it is newer. *)
Theorem last_run_starts_latest_entry w a config_in design_dir target flow state :
  last_run a = true ->
  run_tag a = None ->
  result (load_config w a) = Ret (config_in, design_dir) ->
  result (TargetFlow w (flow_description (flow_name a) config_in)) = Ret target ->
  Flow_init w target config_in design_dir = Returns flow ->
  result (initial_state w (initial_state_json a)) = Ret state ->
  (forall r, In r (glob_glob w (posixpath.join design_dir ["runs"; "*"])) ->
             exists t, os_path_getmtime w r = Returns t) ->
  (exists r t, In r (glob_glob w (posixpath.join design_dir ["runs"; "*"])) /\
               os_path_getmtime w r = Returns t /\ (0 < t)%Z) ->
  exists before selected after time,
    glob_glob w (posixpath.join design_dir ["runs"; "*"])
    = (before ++ selected :: after)%list /\
    os_path_getmtime w selected = Returns time /\
    (0 < time)%Z /\
    (forall r t, In r before -> os_path_getmtime w r = Returns t -> (t < time)%Z) /\
    (forall r t, In r after -> os_path_getmtime w r = Returns t -> (t <= time)%Z) /\
    In (CallStart flow (Some (posixpath.basename selected)) (frm a) (to a) state)
      (trace (cli w a)).
Proof.
  intros Hlast Htag Hload Htarget Hinit Hstate Hread (r0 & t0 & Hin0 & Ht0 & Hpos).
  destruct (scan_runs_from_epoch w _ Hread)
    as [(time & _ & Hall)
       | (time & before & sel & after & Hres & Htime & Hruns & Hsel & Hb & Ha)].
  { specialize (Hall r0 t0 Hin0 Ht0). lia. }
  exists before, sel, after, time.
  do 5 (split; [assumption |]).
  apply cli_calls_start with config_in design_dir target.
  repeat split; try assumption.
  - now rewrite Htag.
  - rewrite Hlast, resolve_run_tag_last. now rewrite Hres.
Qed.

Lemma last_run_starts_latest_entry_witness :
  exists before selected after time,
    glob_glob (sample_world classic_config two_runs (Returns tt))
      (posixpath.join "design" ["runs"; "*"])
    = (before ++ selected :: after)%list /\
    os_path_getmtime (sample_world classic_config two_runs (Returns tt)) selected
    = Returns time /\
    (0 < time)%Z /\
    (forall r t, In r before ->
                 os_path_getmtime (sample_world classic_config two_runs (Returns tt)) r
                 = Returns t -> (t < time)%Z) /\
    (forall r t, In r after ->
                 os_path_getmtime (sample_world classic_config two_runs (Returns tt)) r
                 = Returns t -> (t <= time)%Z) /\
    In (CallStart {| flow_handle := 0 |} (Some (posixpath.basename selected))
          None None None)
      (trace (cli (sample_world classic_config two_runs (Returns tt))
                (sample_args None None true None))).
Proof.
  apply (@last_run_starts_latest_entry
           (sample_world classic_config two_runs (Returns tt))
           (sample_args None None true None)
           classic_config "design" {| flow_class_handle := 0 |}
           {| flow_handle := 0 |} None);
    try reflexivity.
  - intros r [<- | [<- | []]]; eexists; reflexivity.
  - exists "design/runs/RUN_1", 1700000000%Z.
    split; [now left | split; [reflexivity | lia]].
Defined.

(** X11. Under [--last-run], when every listed entry has a modification
    time and no two entries have the same, run resolution ends the same way
    in whatever order the runs directory is listed: with the same tag, or
    with the same report that no runs were found. *)
Theorem last_run_listing_order_irrelevant w w' design_dir run_tag :
  (forall p, os_path_getmtime w' p = os_path_getmtime w p) ->
  Permutation (glob_glob w (posixpath.join design_dir ["runs"; "*"]))
    (glob_glob w' (posixpath.join design_dir ["runs"; "*"])) ->
  (forall r, In r (glob_glob w (posixpath.join design_dir ["runs"; "*"])) ->
             exists t, os_path_getmtime w r = Returns t) ->
  (forall r r',
     In r (glob_glob w (posixpath.join design_dir ["runs"; "*"])) ->
     In r' (glob_glob w (posixpath.join design_dir ["runs"; "*"])) ->
     os_path_getmtime w r = os_path_getmtime w r' -> r = r') ->
  result (resolve_run_tag w' design_dir true run_tag)
  = result (resolve_run_tag w design_dir true run_tag).
Proof.
  intros Hext Hperm Hread Hdistinct.
  rewrite !resolve_run_tag_last, (@scan_runs_ext w w' _ _ _ Hext).
  set (runs := glob_glob w _) in *. set (runs' := glob_glob w' _) in *.
  assert (Hread' : forall r, In r runs' ->
                             exists t, os_path_getmtime w r = Returns t).
  { intros r Hin. apply Hread.
    now apply Permutation_sym, Permutation_in with (x := r) in Hperm. }
  destruct (scan_runs_from_epoch w runs Hread)
    as [(time & Hres & Hall)
       | (time & before & sel & after & Hres & Htime & Hruns & Hsel & _)].
  - destruct (scan_runs_from_epoch w runs' Hread')
      as [(time' & Hres' & _)
         | (time' & before' & sel' & after' & Hres' & Htime' & Hruns' & Hsel' & _)].
    + now rewrite Hres, Hres'.
    + assert (Hin : In sel' runs).
      { apply Permutation_in with (l := runs'); [now apply Permutation_sym |].
        rewrite Hruns'. apply in_or_app. right. now left. }
      specialize (Hall sel' time' Hin Hsel'). lia.
  - assert (Hpos : exists r t, In r runs /\ os_path_getmtime w r = Returns t
                               /\ (0 < t)%Z).
    { exists sel, time. repeat split; try assumption.
      rewrite Hruns. apply in_or_app. right. now left. }
    destruct (@scan_runs_order_independent w _ _ Hperm Hread Hdistinct Hpos)
      as (time0 & sel0 & Hres0 & Hres0' & _).
    now rewrite Hres0, Hres0'.
Qed.

Lemma last_run_listing_order_irrelevant_witness :
  result (resolve_run_tag
            (relisted_world two_runs ["design/runs/RUN_2"; "design/runs/RUN_1"])
            "design" true None)
  = result (resolve_run_tag (sample_world classic_config two_runs (Returns tt))
              "design" true None).
Proof.
  apply last_run_listing_order_irrelevant.
  - reflexivity.
  - apply perm_swap.
  - intros r [<- | [<- | []]]; eexists; reflexivity.
  - intros r r' [<- | [<- | []]] [<- | [<- | []]] H;
      first [reflexivity | discriminate H].
Defined.

(** X12. Under [--last-run], when the stages before run resolution
    succeed and the runs directory lists nothing, the run ends with the
    listing, the diagnostic that no runs were found and exit code 1: no
    modification time is read and the flow is not started. *)
Theorem last_run_without_runs w a config_in design_dir target flow state :
  last_run a = true ->
  run_tag a = None ->
  result (load_config w a) = Ret (config_in, design_dir) ->
  result (TargetFlow w (flow_description (flow_name a) config_in)) = Ret target ->
  Flow_init w target config_in design_dir = Returns flow ->
  result (initial_state w (initial_state_json a)) = Ret state ->
  glob_glob w (posixpath.join design_dir ["runs"; "*"]) = [] ->
  cli w a =
  ((trace (load_config w a)
    ++ trace (TargetFlow w (flow_description (flow_name a) config_in))
    ++ [CallFlowInit target config_in design_dir]
    ++ trace (initial_state w (initial_state_json a))
    ++ [CallGlob (posixpath.join design_dir ["runs"; "*"]);
        Err "--last-run specified, but no runs found."])%list,
   Exit 1).
Proof.
  intros Hlast Htag Hload Htarget Hinit Hstate Hglob.
  assert (Hx : andb (is_not_None (run_tag a)) (last_run a) = false)
    by now rewrite Htag.
  rewrite (cli_after_state _ _ Hx Hload Htarget Hinit Hstate).
  rewrite Hlast. unfold resolve_run_tag. cbv iota zeta.
  unfold call. rewrite Hglob. reflexivity.
Qed.

Lemma last_run_without_runs_witness :
  exit_code (cli (sample_world classic_config [] (Returns tt))
               (sample_args None None true None)) = 1.
Proof.
  exact (f_equal (fun m => exit_code m)
           (@last_run_without_runs
              (sample_world classic_config [] (Returns tt))
              (sample_args None None true None)
              classic_config "design" {| flow_class_handle := 0 |}
              {| flow_handle := 0 |} None
              eq_refl eq_refl eq_refl eq_refl eq_refl eq_refl eq_refl)).
Defined.

(** X13. Under [--last-run], when the stages before run resolution
    succeed and the modification time of a listed entry cannot be read, the
    others before it having one, the exception of [os.path.getmtime] is not
    caught: the times of the entries up to that one are read, in the order
    of the listing, nothing is printed, the entries after it are not looked
    at, the flow is not started and the process ends with code 1. *)
Theorem last_run_unreadable_entry w a config_in design_dir target flow state
    before r after e :
  last_run a = true ->
  run_tag a = None ->
  result (load_config w a) = Ret (config_in, design_dir) ->
  result (TargetFlow w (flow_description (flow_name a) config_in)) = Ret target ->
  Flow_init w target config_in design_dir = Returns flow ->
  result (initial_state w (initial_state_json a)) = Ret state ->
  glob_glob w (posixpath.join design_dir ["runs"; "*"])
  = (before ++ r :: after)%list ->
  (forall p, In p before -> exists t, os_path_getmtime w p = Returns t) ->
  os_path_getmtime w r = Raises e ->
  cli w a =
  ((trace (load_config w a)
    ++ trace (TargetFlow w (flow_description (flow_name a) config_in))
    ++ [CallFlowInit target config_in design_dir]
    ++ trace (initial_state w (initial_state_json a))
    ++ CallGlob (posixpath.join design_dir ["runs"; "*"])
       :: map CallGetmtime (before ++ [r]))%list,
   Raise e)
  /\ exit_code (cli w a) = 1.
Proof.
  intros Hlast Htag Hload Htarget Hinit Hstate Hglob Hread Hr.
  assert (Hx : andb (is_not_None (run_tag a)) (last_run a) = false)
    by now rewrite Htag.
  assert (Hrun : cli w a =
    ((trace (load_config w a)
      ++ trace (TargetFlow w (flow_description (flow_name a) config_in))
      ++ [CallFlowInit target config_in design_dir]
      ++ trace (initial_state w (initial_state_json a))
      ++ CallGlob (posixpath.join design_dir ["runs"; "*"])
         :: map CallGetmtime (before ++ [r]))%list,
     Raise e)).
  { assert (Hresolve :
      resolve_run_tag w design_dir true (run_tag a) =
      (CallGlob (posixpath.join design_dir ["runs"; "*"])
       :: map CallGetmtime (before ++ [r]), Raise e)).
    { unfold resolve_run_tag. cbv iota zeta. unfold bind, call.
      rewrite Hglob, (@scan_runs_raises w before r after e 0 None Hread Hr).
      reflexivity. }
    rewrite (cli_after_state _ _ Hx Hload Htarget Hinit Hstate).
    rewrite Hlast, Hresolve. reflexivity. }
  split; [exact Hrun | now rewrite Hrun].
Qed.

Lemma last_run_unreadable_entry_witness :
  result (cli (relisted_world two_runs dangling_run)
            (sample_args None None true None))
  = Raise (OSError "No such file or directory").
Proof.
  exact (f_equal (fun m => result m)
           (proj1 (@last_run_unreadable_entry
                     (relisted_world two_runs dangling_run)
                     (sample_args None None true None)
                     classic_config "design" {| flow_class_handle := 0 |}
                     {| flow_handle := 0 |} None
                     ["design/runs/RUN_1"] "design/runs/GONE"
                     ["design/runs/RUN_2"]
                     (OSError "No such file or directory")
                     eq_refl eq_refl eq_refl eq_refl eq_refl eq_refl eq_refl
                     (fun p H =>
                        match H with
                        | or_introl Heq =>
                            ex_intro _ 1700000000%Z
                              (f_equal (os_path_getmtime
                                          (relisted_world two_runs dangling_run))
                                 (eq_sym Heq))
                        | or_intror F => match F with end
                        end)
                     eq_refl))).
Defined.

(** ** Mutual exclusion of [--run-tag] and [--last-run] *)

(** The claim C2 fails: with both [--run-tag] and [--last-run] and a
    value of [--flow] that is no registered flow, the process ends with
    click's usage error and code 2, not 1. *)
Lemma mutual_exclusion_counterexample :
  run_tag (sample_args (Some "Bogus") (Some "RUN_1") true None) = Some "RUN_1"
  /\ last_run (sample_args (Some "Bogus") (Some "RUN_1") true None) = true
  /\ main (sample_world classic_config two_runs (Returns tt))
       (sample_args (Some "Bogus") (Some "RUN_1") true None)
     = ([UsageError "--flow" "Bogus"], Exit 2)
  /\ exit_code (main (sample_world classic_config two_runs (Returns tt))
                  (sample_args (Some "Bogus") (Some "RUN_1") true None)) <> 1.
Proof. repeat split. discriminate. Qed.

(** C2, amended. When both a run tag and the last-run flag are given,
    the process calls no collaborator, whatever the other options are: no
    configuration is loaded, no flow resolved, no state file read, no run
    looked for, no flow started. When the value of [--flow] matches no
    registered name, whatever the case of its letters, click refuses it
    before [cli] runs and the process ends with the usage error and code 2;
    in every other invocation the run is the mutual exclusion diagnostic of
    [cli] and the process ends with code 1. The body of [cli] itself, on
    any options with both selectors, is that diagnostic and [exit(1)]. *)
Theorem mutual_exclusion_before_config w argv tag :
  run_tag argv = Some tag ->
  last_run argv = true ->
  (forall ev, In ev (trace (main w argv)) ->
              callee ev = Printer \/ callee ev = Click)
  /\ (forall value,
        flow_name argv = Some value ->
        (forall c, In c (Flow_factory_list w) ->
                   str_casefold w c <> str_casefold w value) ->
        main w argv = ([UsageError "--flow" value], Exit 2))
  /\ ((forall value,
         flow_name argv = Some value ->
         exists c, In c (Flow_factory_list w) /\
                   str_casefold w c = str_casefold w value) ->
      main w argv =
      ([Err "--run-tag and --last-run are mutually exclusive."], Exit 1)
      /\ exit_code (main w argv) = 1)
  /\ cli w argv =
     ([Err "--run-tag and --last-run are mutually exclusive."], Exit 1).
Proof.
  intros Htag Hlast.
  assert (Hcli : forall f,
             cli w (with_flow_name argv f) =
             ([Err "--run-tag and --last-run are mutually exclusive."], Exit 1)).
  { intros f. apply cli_mutually_exclusive. simpl. now rewrite Htag, Hlast. }
  assert (Hcli' : cli w argv =
             ([Err "--run-tag and --last-run are mutually exclusive."], Exit 1)).
  { apply cli_mutually_exclusive. now rewrite Htag, Hlast. }
  destruct (main_cases w argv)
    as [(value & Hflow & Hnone & Hmain) | [(Hflow & Hmain) | (choice & Hin & Hmain)]].
  - split; [| split; [| split; [| exact Hcli']]].
    + rewrite Hmain. intros ev [<- | []]. now right.
    + intros value' Hv _. congruence.
    + intros Hsome. destruct (Hsome value Hflow) as (c & Hc & Heq).
      now destruct (Hnone c Hc).
  - rewrite Hmain, Hcli'. split; [| split; [| split; [| reflexivity]]].
    + intros ev [<- | []]. now left.
    + intros value Hv _. congruence.
    + intros _. now split.
  - rewrite Hmain, Hcli. split; [| split; [| split; [| exact Hcli']]].
    + intros ev [<- | []]. now left.
    + intros value Hv Hnone. exfalso.
      unfold main in Hmain. rewrite Hv in Hmain.
      rewrite (proj2 (Choice_convert_None (str_casefold w) (Flow_factory_list w) value) Hnone)
        in Hmain.
      rewrite Hcli in Hmain. discriminate.
    + intros _. now split.
Qed.

Lemma mutual_exclusion_before_config_witness :
  main (sample_world classic_config two_runs (Returns tt))
    (sample_args (Some "classic") (Some "RUN_1") true None)
  = ([Err "--run-tag and --last-run are mutually exclusive."], Exit 1)
  /\ exit_code (main (sample_world classic_config two_runs (Returns tt))
                  (sample_args (Some "classic") (Some "RUN_1") true None)) = 1.
Proof.
  refine (proj1 (proj2 (proj2 (@mutual_exclusion_before_config
                          (sample_world classic_config two_runs (Returns tt))
                          (sample_args (Some "classic") (Some "RUN_1") true None)
                          "RUN_1" eq_refl eq_refl))) _).
  intros value Hv. injection Hv as <-.
  exists "Classic". split; [now left | reflexivity].
Defined.

(** ** The value of [--flow] *)

(** X15. A value of [--flow] whose [str.casefold] is that of a
    registered flow name is accepted: [cli] runs with a registered name of
    the same casefold, which is that very name when no two registered names
    have the same casefold. *)
Theorem flow_option_ignores_case w argv value registered :
  flow_name argv = Some value ->
  In registered (Flow_factory_list w) ->
  str_casefold w registered = str_casefold w value ->
  exists choice,
    In choice (Flow_factory_list w) /\
    str_casefold w choice = str_casefold w value /\
    main w argv = cli w (with_flow_name argv (Some choice)) /\
    ((forall c1 c2,
        In c1 (Flow_factory_list w) -> In c2 (Flow_factory_list w) ->
        str_casefold w c1 = str_casefold w c2 -> c1 = c2) ->
     choice = registered).
Proof.
  intros Hflow Hin Hfold.
  destruct (click.Choice_convert (str_casefold w) (Flow_factory_list w) false value)
    as [choice |] eqn:Hconv.
  - destruct (@Choice_convert_Some _ _ _ _ Hconv) as [Hc Hcf].
    exists choice. repeat split; try assumption.
    + unfold main. now rewrite Hflow, Hconv.
    + intros Hinj. apply Hinj; congruence.
  - exfalso.
    now apply (proj1 (Choice_convert_None (str_casefold w) (Flow_factory_list w) value) Hconv
                 registered).
Qed.

Lemma flow_option_ignores_case_witness :
  exists choice,
    In choice (Flow_factory_list (sample_world classic_config [] (Returns tt))) /\
    str_casefold (sample_world classic_config [] (Returns tt)) choice
    = str_casefold (sample_world classic_config [] (Returns tt)) "CLASSIC" /\
    main (sample_world classic_config [] (Returns tt))
      (sample_args (Some "CLASSIC") None false None)
    = cli (sample_world classic_config [] (Returns tt))
        (with_flow_name (sample_args (Some "CLASSIC") None false None)
           (Some choice)) /\
    ((forall c1 c2,
        In c1 (Flow_factory_list (sample_world classic_config [] (Returns tt))) ->
        In c2 (Flow_factory_list (sample_world classic_config [] (Returns tt))) ->
        str_casefold (sample_world classic_config [] (Returns tt)) c1
        = str_casefold (sample_world classic_config [] (Returns tt)) c2 ->
        c1 = c2) ->
     choice = "Classic").
Proof.
  apply (@flow_option_ignores_case
           (sample_world classic_config [] (Returns tt))
           (sample_args (Some "CLASSIC") None false None)
           "CLASSIC" "Classic").
  - reflexivity.
  - now left.
  - reflexivity.
Defined.
